(** * TKLBAM backup command: session orchestration and Hub negotiation

    A shallow embedding of [cmd_backup.py]: [get_server_id], [get_profile]
    and [main].  The body of [main] from the acquisition of the pid lock on
    is a command that takes the locals [conf], [opt_debug], [opt_resume]
    and [opt_logfile] as arguments; the option loop above it, which fills
    these locals and has no other effect than ending the program, is the
    pure function [options].

    Python's ambient effects are made explicit: the registry is a record
    threaded through a state monad, every call to a collaborator (Hub
    client, hooks, backup engine, output trap) and every line written to
    the terminal is recorded in a trace, and exceptions are results. *)

From Stdlib Require Import String List ZArith Bool Lia.
Import ListNotations.

Set Implicit Arguments.

(** ** Exceptions *)

(** The exceptions the command can see.  [hub.NotSubscribedError] and
    [hub.InvalidBackupError] derive from the Hub's general [Error];
    [Exception] stands for any exception outside that hierarchy (engine and
    hook failures). *)
Inductive exn : Type :=
| HubError (msg : string)
| NotSubscribedError (msg : string)
| InvalidBackupError (msg : string)
| AttributeError (msg : string)
| SystemExit (code : Z)
| Exception (msg : string).

(** [except hb.Error, e] *)
Definition is_hub_error (e : exn) : bool :=
  match e with
  | HubError _ | NotSubscribedError _ | InvalidBackupError _ => true
  | _ => false
  end.

(** [isinstance(e, hub.NotSubscribedError)] *)
Definition is_not_subscribed (e : exn) : bool :=
  match e with NotSubscribedError _ => true | _ => false end.

(** [isinstance(e, hub.InvalidBackupError)] *)
Definition is_invalid_backup (e : exn) : bool :=
  match e with InvalidBackupError _ => true | _ => false end.

(** [str(e)] *)
Definition str (e : exn) : string :=
  match e with
  | HubError m | NotSubscribedError m | InvalidBackupError m
  | AttributeError m | Exception m => m
  | SystemExit _ => "1"%string
  end.

Inductive result (A : Type) : Type :=
| Ok (a : A)
| Raise (e : exn).
Arguments Raise {A} e.

(** ** Data model *)

(** Modelled from the spec: the classes of [registry], [hub] and [conf] are
    not part of the sources; their instances are records holding the
    attributes that [cmd_backup.py] reads and writes. *)
Record Profile := { timestamp : Z; profile_id : string }.

Record Credentials := { accesskey : string; secretkey : string }.

Module BackupRecord.
Record t := { backup_id : string; address : string; key : string }.
End BackupRecord.

(** [conf.profile] is either the value of [--profile] or the profile object
    handed back by [get_profile]. *)
Inductive profile_ref : Type :=
| ProfilePath (path : string)
| ProfileObj (p : Profile).

Module Conf.
Record t := {
  secretfile : string;
  simulate : bool;
  profile : option profile_ref;
  verbose : bool;
  address : option string;
  volsize : Z;
  s3_parallel_uploads : Z;
  full_backup : string;
  backup_skip_files : bool;
  backup_skip_database : bool;
  backup_skip_packages : bool;
  overrides : list string;
  credentials : option Credentials;
  checkpoint_restore : bool
}.

Definition set_profile (p : option profile_ref) (c : t) : t :=
  {| secretfile := secretfile c; simulate := simulate c; profile := p;
     verbose := verbose c; address := address c; volsize := volsize c;
     s3_parallel_uploads := s3_parallel_uploads c;
     full_backup := full_backup c;
     backup_skip_files := backup_skip_files c;
     backup_skip_database := backup_skip_database c;
     backup_skip_packages := backup_skip_packages c;
     overrides := overrides c; credentials := credentials c;
     checkpoint_restore := checkpoint_restore c |}.

Definition set_address (a : option string) (c : t) : t :=
  {| secretfile := secretfile c; simulate := simulate c;
     profile := profile c; verbose := verbose c; address := a;
     volsize := volsize c;
     s3_parallel_uploads := s3_parallel_uploads c;
     full_backup := full_backup c;
     backup_skip_files := backup_skip_files c;
     backup_skip_database := backup_skip_database c;
     backup_skip_packages := backup_skip_packages c;
     overrides := overrides c; credentials := credentials c;
     checkpoint_restore := checkpoint_restore c |}.

Definition set_credentials (k : option Credentials) (c : t) : t :=
  {| secretfile := secretfile c; simulate := simulate c;
     profile := profile c; verbose := verbose c; address := address c;
     volsize := volsize c;
     s3_parallel_uploads := s3_parallel_uploads c;
     full_backup := full_backup c;
     backup_skip_files := backup_skip_files c;
     backup_skip_database := backup_skip_database c;
     backup_skip_packages := backup_skip_packages c;
     overrides := overrides c; credentials := k;
     checkpoint_restore := checkpoint_restore c |}.

(** Modelled from the spec: [Conf.__eq__] is not part of the sources; two
    configurations are equal when they agree field by field. *)
Definition eq_dec (a b : t) : {a = b} + {a <> b}.
Proof.
  decide equality;
    repeat first
      [ apply string_dec | apply Z.eq_dec | apply bool_dec
      | apply list_eq_dec | decide equality ].
Defined.

Definition eqb (a b : t) : bool := if eq_dec a b then true else false.
End Conf.

Module Registry.
Record t := {
  sub_apikey : string;
  key : string;
  profile : option Profile;
  credentials : option Credentials;
  hbr : option BackupRecord.t;
  backup_resume_conf : option Conf.t
}.

Definition set_profile (p : option Profile) (r : t) : t :=
  {| sub_apikey := sub_apikey r; key := key r; profile := p;
     credentials := credentials r; hbr := hbr r;
     backup_resume_conf := backup_resume_conf r |}.

Definition set_credentials (c : option Credentials) (r : t) : t :=
  {| sub_apikey := sub_apikey r; key := key r; profile := profile r;
     credentials := c; hbr := hbr r;
     backup_resume_conf := backup_resume_conf r |}.

Definition set_hbr (h : option BackupRecord.t) (r : t) : t :=
  {| sub_apikey := sub_apikey r; key := key r; profile := profile r;
     credentials := credentials r; hbr := h;
     backup_resume_conf := backup_resume_conf r |}.

Definition set_backup_resume_conf (c : option Conf.t) (r : t) : t :=
  {| sub_apikey := sub_apikey r; key := key r; profile := profile r;
     credentials := credentials r; hbr := hbr r;
     backup_resume_conf := c |}.
End Registry.

(** ** Truth values *)

(** Python's truth test, as used by [if x] and [not x]: [None] and the
    empty string are false, an object is true. *)
Class Truthy (A : Type) := truthy : A -> bool.

#[export] Instance truthy_string : Truthy string :=
  fun s => match s with EmptyString => false | String _ _ => true end.
#[export] Instance truthy_Profile : Truthy Profile := fun _ => true.
#[export] Instance truthy_Credentials : Truthy Credentials := fun _ => true.
#[export] Instance truthy_BackupRecord : Truthy BackupRecord.t := fun _ => true.
#[export] Instance truthy_profile_ref : Truthy profile_ref :=
  fun r => match r with ProfilePath s => truthy s | ProfileObj p => truthy p end.
#[export] Instance truthy_option {A} `{Truthy A} : Truthy (option A) :=
  fun o => match o with Some a => truthy a | None => false end.

(** ** Observable events *)

Inductive event : Type :=
(* terminal *)
| Warn (msg : string)                      (* warn(): "warning: " + msg *)
| Error (msg : string)                     (* fatal(): "error: " + msg *)
| Print (msg : string)
(* pid lock *)
| LockAcquired
(* Hub client *)
| HubBackups (apikey : string)
| HubGetNewProfile (version : string) (since : option Z)
| HubGetCredentials
| HubGetBackupRecord (id : string)
| HubNewBackupRecord (key version : string) (server_id : option string)
| HubSetBackupInprogress (id : string) (inprogress : bool)
| HubUpdatedBackup (address : option string)
(* registry writes *)
| StoreProfile (p : option Profile)
| StoreCredentials (c : option Credentials)
| StoreHbr (h : option BackupRecord.t)
| StoreBackupResumeConf (c : option Conf.t)
(* hooks, engine, output trap *)
| HookPre
| HookPost
| EngineNew (conf : Conf.t) (resume : bool)
| EngineRun (debug : bool)
| EngineCleanup
| TrapOpen
| TrapClose
| LogAppend (logfile : string).

(** ** The command monad *)

(** The mutable state seen by [main]: the registry, and the local [trap]
    that the [finally] block tests ([true] while it holds a trap object). *)
Record State := { registry : Registry.t; trap : bool }.

Definition M (A : Type) : Type := State -> result A * State * list event.

Definition ret {A} (a : A) : M A := fun s => (Ok a, s, []).

Definition raise {A} (e : exn) : M A := fun s => (Raise e, s, []).

Definition bind {A B} (m : M A) (f : A -> M B) : M B :=
  fun s =>
    match m s with
    | (Ok a, s1, t1) => let '(r, s2, t2) := f a s1 in (r, s2, t1 ++ t2)
    | (Raise e, s1, t1) => (Raise e, s1, t1)
    end.

Declare Scope cmd_scope.
Delimit Scope cmd_scope with cmd.
Notation "x <- m ;; k" := (bind m (fun x => k))
  (at level 100, m at next level, right associativity) : cmd_scope.
Notation "' p <- m ;; k" := (bind m (fun x => let 'p := x in k))
  (at level 100, p pattern, m at next level, right associativity) : cmd_scope.
Notation "m ;; k" := (bind m (fun _ => k))
  (at level 100, right associativity) : cmd_scope.
Local Open Scope cmd_scope.

(** [try: body except: handler]; a handler re-raises what it does not
    catch. *)
Definition try_except {A} (body : M A) (handler : exn -> M A) : M A :=
  fun s =>
    match body s with
    | (Ok a, s1, t1) => (Ok a, s1, t1)
    | (Raise e, s1, t1) => let '(r, s2, t2) := handler e s1 in (r, s2, t1 ++ t2)
    end.

(** [try: body except hb.Error, e: handler e] *)
Definition try_except_hub {A} (body : M A) (handler : exn -> M A) : M A :=
  try_except body (fun e => if is_hub_error e then handler e else raise e).

(** [try: body finally: fin]; an exception raised by [fin] replaces the
    outcome of [body]. *)
Definition try_finally {A} (body : M A) (fin : M unit) : M A :=
  fun s =>
    let '(r, s1, t1) := body s in
    match fin s1 with
    | (Ok _, s2, t2) => (r, s2, t1 ++ t2)
    | (Raise e, s2, t2) => (Raise e, s2, t1 ++ t2)
    end.

Definition emit (ev : event) : M unit := fun s => (Ok tt, s, [ev]).

(** A call to a collaborator: the call is recorded, then it returns or
    raises. *)
Definition call {A} (ev : event) (r : result A) : M A := fun s => (r, s, [ev]).

Definition get_registry : M Registry.t := fun s => (Ok (registry s), s, []).

Definition get_trap : M bool := fun s => (Ok (trap s), s, []).

Definition set_trap (b : bool) : M unit :=
  fun s => (Ok tt, {| registry := registry s; trap := b |}, []).

Definition update_registry (f : Registry.t -> Registry.t) : M unit :=
  fun s => (Ok tt, {| registry := f (registry s); trap := trap s |}, []).

Definition when (b : bool) (m : M unit) : M unit := if b then m else ret tt.

Definition pass : M unit := ret tt.

(** Assignments to the registry's attributes persist at once. *)
Definition store_profile (p : option Profile) : M unit :=
  emit (StoreProfile p) ;; update_registry (Registry.set_profile p).

Definition store_credentials (c : option Credentials) : M unit :=
  emit (StoreCredentials c) ;; update_registry (Registry.set_credentials c).

Definition store_hbr (h : option BackupRecord.t) : M unit :=
  emit (StoreHbr h) ;; update_registry (Registry.set_hbr h).

Definition store_backup_resume_conf (c : option Conf.t) : M unit :=
  emit (StoreBackupResumeConf c) ;;
  update_registry (Registry.set_backup_resume_conf c).

Definition warn (msg : string) : M unit := emit (Warn msg).

(** [fatal]: print the error, then [sys.exit(1)]. *)
Definition fatal {A} (msg : string) : M A :=
  emit (Error msg) ;; raise (SystemExit 1).

Definition print (msg : string) : M unit := emit (Print msg).

(** ** Collaborators *)

(** Modelled from the spec: the Hub client ([hub.Backups]) is not part of
    the sources.  Each method either returns or raises; the answers of the
    remote service are the fields of this record. *)
Record Hub := {
  get_new_profile : string -> option Z -> result (option Profile);
  get_credentials : result Credentials;
  get_backup_record : string -> result BackupRecord.t;
  new_backup_record : string -> string -> option string -> result BackupRecord.t;
  set_backup_inprogress : string -> bool -> result unit;
  updated_backup : option string -> result unit
}.

(** Modelled from the spec: the pid lock, the hooks, the backup engine and
    the files read by [get_turnkey_version] and [ServerConf] are not part of
    the sources.  [hooks.backup.pre], [hooks.backup.post] and the engine's
    [run] may raise; the engine's constructor and [cleanup] (safe to call
    even if [run] never completed) and the output trap return. *)
Record Host := {
  turnkey_version : string;
  server_conf : list (string * string);
  locked : bool;
  hooks_backup_pre : result unit;
  hooks_backup_post : result unit;
  backup_run : Conf.t -> bool -> bool -> result unit
}.

Fixpoint lookup (k : string) (d : list (string * string)) : option string :=
  match d with
  | [] => None
  | (k', v) :: d' => if String.eqb k k' then Some v else lookup k d'
  end.

Section Command.

Variable hb : Hub.
Variable host : Host.

Definition get_turnkey_version : string := turnkey_version host.

(** [ServerConf()['serverid']], [None] on [KeyError]. *)
Definition get_server_id : option string :=
  lookup "serverid" (server_conf host).

(** *** [get_profile] (lines 125-145) *)
Definition get_profile : M (option Profile) :=
  reg <- get_registry ;;
  let profile_timestamp :=
    if truthy (Registry.profile reg)
    then option_map timestamp (Registry.profile reg)
    else None in
  let turnkey_version := get_turnkey_version in
  try_except_hub
    (new_profile <- call (HubGetNewProfile turnkey_version profile_timestamp)
                         (get_new_profile hb turnkey_version profile_timestamp) ;;
     when (truthy new_profile) (store_profile new_profile))
    (fun e =>
       reg <- get_registry ;;
       when (negb (truthy (Registry.profile reg))) (raise e) ;;
       warn ("using cached profile because of a Hub error: " ++ str e)%string) ;;
  reg <- get_registry ;;
  ret (Registry.profile reg).

(** *** [main], lines 220-224: the pid lock *)
Definition acquire_lock : M unit :=
  if locked host
  then fatal "a previous backup is still in progress"
  else emit LockAcquired.

(** lines 226-227 *)
Definition check_parallel_uploads (conf : Conf.t) : M unit :=
  when ((1 <? Conf.s3_parallel_uploads conf)%Z
        && (Conf.volsize conf / 5 <? Conf.s3_parallel_uploads conf)%Z)
       (warn "s3-parallel-uploads > volsize / 5 (minimum upload chunk is 5MB)").

(** lines 231-232 *)
Definition negotiate_profile (conf : Conf.t) : M Conf.t :=
  if negb (truthy (Conf.profile conf))
  then p <- get_profile ;; ret (Conf.set_profile (option_map ProfileObj p) conf)
  else ret conf.

(** lines 235-249 *)
Definition negotiate_credentials (conf : Conf.t) : M Conf.t :=
  try_except_hub
    (c <- call HubGetCredentials (get_credentials hb) ;;
     store_credentials (Some c))
    (fun e =>
       when (is_not_subscribed e) (fatal (str e)) ;;
       reg <- get_registry ;;
       when (negb (truthy (Registry.credentials reg))) pass ;;
       warn (str e)) ;;
  reg <- get_registry ;;
  ret (Conf.set_credentials (Registry.credentials reg) conf).

(** [registry.hbr.backup_id]: an attribute of [None] cannot be read. *)
Definition hbr_backup_id (h : option BackupRecord.t) : M string :=
  match h with
  | Some r => ret (BackupRecord.backup_id r)
  | None => raise (AttributeError "'NoneType' object has no attribute 'backup_id'")
  end.

Definition hbr_address (h : option BackupRecord.t) : M string :=
  match h with
  | Some r => ret (BackupRecord.address r)
  | None => raise (AttributeError "'NoneType' object has no attribute 'address'")
  end.

(** lines 251-272 *)
Definition negotiate_backup_record (conf : Conf.t) : M Conf.t :=
  reg <- get_registry ;;
  when (truthy (Registry.hbr reg))
    (try_except_hub
       (id <- hbr_backup_id (Registry.hbr reg) ;;
        r <- call (HubGetBackupRecord id) (get_backup_record hb id) ;;
        store_hbr (Some r))
       (fun e =>
          if is_invalid_backup e
          then warn "old backup record deleted, creating new ... " ;;
               store_hbr None
          else warn (str e))) ;;
  reg <- get_registry ;;
  when (negb (truthy (Registry.hbr reg)))
    (r <- call (HubNewBackupRecord (Registry.key reg) get_turnkey_version
                                   get_server_id)
               (new_backup_record hb (Registry.key reg) get_turnkey_version
                                  get_server_id) ;;
     store_hbr (Some r)) ;;
  reg <- get_registry ;;
  a <- hbr_address (Registry.hbr reg) ;;
  ret (Conf.set_address (Some a) conf).

(** lines 234-272 *)
Definition negotiate (conf : Conf.t) : M Conf.t :=
  if negb (truthy (Conf.address conf))
  then conf <- negotiate_credentials conf ;;
       negotiate_backup_record conf
  else ret conf.

(** lines 274-289: explicit and implicit resume *)
Definition resolve_session (conf : Conf.t) (opt_resume : bool)
  : M (Conf.t * bool) :=
  '(conf, opt_resume) <-
    (if opt_resume
     then
       when (Conf.simulate conf)
            (fatal "--resume and --simulate incompatible") ;;
       reg <- get_registry ;;
       match Registry.backup_resume_conf reg with
       | None => fatal "no previous backup session to resume from"
       | Some stored => ret (stored, opt_resume)
       end
     else
       reg <- get_registry ;;
       if negb (Conf.simulate conf)
          && match Registry.backup_resume_conf reg with
             | Some stored => Conf.eqb stored conf
             | None => false
             end
       then ret (conf, true)
       else ret (conf, opt_resume)) ;;
  when opt_resume (print "ATTEMPTING TO RESUME ABORTED SESSION") ;;
  ret (conf, opt_resume).

(** lines 291-293 *)
Definition rearm (conf : Conf.t) : M unit :=
  store_backup_resume_conf None ;;
  when (negb (Conf.simulate conf)) (store_backup_resume_conf (Some conf)).

(** lines 300-326: the engine run under the output trap *)
Definition run_trapped (opt_debug opt_resume : bool) (opt_logfile : string)
           (conf : Conf.t) (is_hub_address : bool) (backup_id : string)
  : M unit :=
  emit TrapOpen ;; set_trap true ;;
  try_finally
    (call HookPre (hooks_backup_pre host) ;;
     when is_hub_address
          (call (HubSetBackupInprogress backup_id true)
                (set_backup_inprogress hb backup_id true)) ;;
     when opt_debug (emit TrapClose ;; set_trap false) ;;
     call (EngineRun opt_debug) (backup_run host conf opt_resume opt_debug) ;;
     call HookPost (hooks_backup_post host))
    (when is_hub_address
          (call (HubSetBackupInprogress backup_id false)
                (set_backup_inprogress hb backup_id false)) ;;
     trap <- get_trap ;;
     when trap (emit TrapClose ;; emit (LogAppend opt_logfile))).

(** line 295 *)
Definition is_hub_address (conf : Conf.t) (reg : Registry.t) : bool :=
  negb (Conf.simulate conf)
  && match Registry.hbr reg with
     | Some r =>
         truthy r
         && match Conf.address conf with
            | Some a => String.eqb (BackupRecord.address r) a
            | None => false
            end
     | None => false
     end.

(** lines 295-342: the run/cleanup supervisor *)
Definition supervise (opt_debug opt_resume : bool) (opt_logfile : string)
           (conf : Conf.t) : M unit :=
  reg <- get_registry ;;
  let is_hub_address := is_hub_address conf reg in
  backup_id <- hbr_backup_id (Registry.hbr reg) ;;
  emit (EngineNew conf opt_resume) ;;
  try_except
    (run_trapped opt_debug opt_resume opt_logfile conf is_hub_address backup_id)
    (fun e =>
       when (negb (Conf.checkpoint_restore conf)) (emit EngineCleanup) ;;
       raise e) ;;
  (if Conf.simulate conf
   then print "Completed --simulate: Leaving /TKLBAM intact so you can manually inspect it"
   else emit EngineCleanup) ;;
  store_backup_resume_conf None ;;
  when (negb (Conf.simulate conf))
       (call (HubUpdatedBackup (Conf.address conf))
             (updated_backup hb (Conf.address conf))).

(** lines 220-272: lock, then the Hub negotiator *)
Definition hub_negotiator (conf : Conf.t) : M Conf.t :=
  acquire_lock ;;
  check_parallel_uploads conf ;;
  reg <- get_registry ;;
  emit (HubBackups (Registry.sub_apikey reg)) ;;
  conf <- negotiate_profile conf ;;
  negotiate conf.

(** lines 220-293: everything that precedes the engine *)
Definition prepare (conf : Conf.t) (opt_resume : bool) : M (Conf.t * bool) :=
  conf <- hub_negotiator conf ;;
  '(conf, opt_resume) <- resolve_session conf opt_resume ;;
  rearm conf ;;
  ret (conf, opt_resume).

Definition main (conf : Conf.t) (opt_debug opt_resume : bool)
           (opt_logfile : string) : M unit :=
  '(conf, opt_resume) <- prepare conf opt_resume ;;
  supervise opt_debug opt_resume opt_logfile conf.

End Command.

(** ** Reading traces *)

Definition count (K : event -> bool) (tr : list event) : nat :=
  length (filter K tr).

Definition is_warn (ev : event) : bool :=
  match ev with Warn _ => true | _ => false end.

(** The events sorted by the component that causes them. *)
Definition terminal_event (ev : event) : bool :=
  match ev with Warn _ | Error _ | Print _ => true | _ => false end.

Definition setup_event (ev : event) : bool :=
  match ev with LockAcquired | HubBackups _ => true | _ => false end.

Definition profile_event (ev : event) : bool :=
  match ev with HubGetNewProfile _ _ | StoreProfile _ => true | _ => false end.

(** Calls and registry writes of the credential and backup-record
    negotiation. *)
Definition negotiation_event (ev : event) : bool :=
  match ev with
  | HubGetCredentials | HubGetBackupRecord _ | HubNewBackupRecord _ _ _
  | StoreCredentials _ | StoreHbr _ => true
  | _ => false
  end.

Definition is_store_resume (ev : event) : bool :=
  match ev with StoreBackupResumeConf _ => true | _ => false end.

Definition is_inprogress (ev : event) : bool :=
  match ev with HubSetBackupInprogress _ _ => true | _ => false end.

Definition is_engine_new (ev : event) : bool :=
  match ev with EngineNew _ _ => true | _ => false end.

Definition is_engine_run (ev : event) : bool :=
  match ev with EngineRun _ => true | _ => false end.

Definition is_engine_cleanup (ev : event) : bool :=
  match ev with EngineCleanup => true | _ => false end.

Definition is_updated_backup (ev : event) : bool :=
  match ev with HubUpdatedBackup _ => true | _ => false end.

(** What happens under the output trap: hooks, engine run, the Hub's
    in-progress bookkeeping, trap and session log. *)
Definition trapped_event (ev : event) : bool :=
  match ev with
  | HookPre | HookPost | EngineRun _ | TrapOpen | TrapClose | LogAppend _
  | HubSetBackupInprogress _ _ => true
  | _ => false
  end.

(** What the supervisor does around the trapped run. *)
Definition completion_event (ev : event) : bool :=
  match ev with
  | EngineNew _ _ | EngineCleanup | HubUpdatedBackup _ => true
  | _ => false
  end.

(** Everything the run/cleanup supervisor alone does. *)
Definition supervisor_event (ev : event) : bool :=
  trapped_event ev || completion_event ev.

(** The in-progress notifications and the engine run, in the order they
    happened. *)
Definition timeline (tr : list event) : list event :=
  filter (fun ev => is_inprogress ev || is_engine_run ev) tr.

(** ** Invariants of commands *)

(** [triple I P m]: started in a state whose registry satisfies [I], the
    command [m] ends (normally or not) in such a state, and every event it
    emits satisfies [P]. *)
Definition triple {A} (I : Registry.t -> Prop) (P : event -> bool) (m : M A)
  : Prop :=
  forall s r s' t,
    m s = (r, s', t) -> I (registry s) ->
    I (registry s') /\ forallb P t = true.

(** [a] is a value the command can return. *)
Definition returns {A} (m : M A) (a : A) : Prop :=
  exists s s' t, m s = (Ok a, s', t).

Definition stable (I : Registry.t -> Prop) (f : Registry.t -> Registry.t) : Prop :=
  forall r, I r -> I (f r).

Definition accepts (P K : event -> bool) : Prop :=
  forall ev, K ev = true -> P ev = true.

Definition with_backup_resume_conf (c : option Conf.t) (s : State) : State :=
  {| registry := Registry.set_backup_resume_conf c (registry s);
     trap := trap s |}.

(** The state after an assignment to an attribute of the registry. *)
Definition with_registry (f : Registry.t -> Registry.t) (s : State) : State :=
  {| registry := f (registry s); trap := trap s |}.

Local Open Scope string_scope.
Local Open Scope list_scope.

(** ** Further readers of a trace *)

Definition is_log_append (ev : event) : bool :=
  match ev with LogAppend _ => true | _ => false end.

Definition is_trap_close (ev : event) : bool :=
  match ev with TrapClose => true | _ => false end.

(** Hooks and engine run, in the order they happened. *)
Definition steps (tr : list event) : list event :=
  filter (fun ev => match ev with
                    | HookPre | HookPost | EngineRun _ => true
                    | _ => false
                    end) tr.

Definition succeeded {A} (r : result A) : bool :=
  match r with Ok _ => true | Raise _ => false end.

(** line 293: the resumable slot is armed *)
Definition is_arm (ev : event) : bool :=
  match ev with StoreBackupResumeConf (Some _) => true | _ => false end.

(** The Hub cannot be reached: every call raises the same error, which is
    neither of the Hub's two special ones. *)
Definition unreachable (hb : Hub) (e : exn) : Prop :=
  is_hub_error e = true
  /\ is_not_subscribed e = false
  /\ is_invalid_backup e = false
  /\ (forall v since, get_new_profile hb v since = Raise e)
  /\ get_credentials hb = Raise e
  /\ (forall id, get_backup_record hb id = Raise e)
  /\ (forall id b, set_backup_inprogress hb id b = Raise e).

(** ** The option loop (lines 148-218) *)

(** Assignments to the attributes of [conf] made by the option loop. *)
Module Assign.

Definition simulate (b : bool) (c : Conf.t) : Conf.t :=
  {| Conf.secretfile := Conf.secretfile c; Conf.simulate := b;
     Conf.profile := Conf.profile c; Conf.verbose := Conf.verbose c;
     Conf.address := Conf.address c; Conf.volsize := Conf.volsize c;
     Conf.s3_parallel_uploads := Conf.s3_parallel_uploads c;
     Conf.full_backup := Conf.full_backup c;
     Conf.backup_skip_files := Conf.backup_skip_files c;
     Conf.backup_skip_database := Conf.backup_skip_database c;
     Conf.backup_skip_packages := Conf.backup_skip_packages c;
     Conf.overrides := Conf.overrides c;
     Conf.credentials := Conf.credentials c;
     Conf.checkpoint_restore := Conf.checkpoint_restore c |}.

Definition verbose (b : bool) (c : Conf.t) : Conf.t :=
  {| Conf.secretfile := Conf.secretfile c; Conf.simulate := Conf.simulate c;
     Conf.profile := Conf.profile c; Conf.verbose := b;
     Conf.address := Conf.address c; Conf.volsize := Conf.volsize c;
     Conf.s3_parallel_uploads := Conf.s3_parallel_uploads c;
     Conf.full_backup := Conf.full_backup c;
     Conf.backup_skip_files := Conf.backup_skip_files c;
     Conf.backup_skip_database := Conf.backup_skip_database c;
     Conf.backup_skip_packages := Conf.backup_skip_packages c;
     Conf.overrides := Conf.overrides c;
     Conf.credentials := Conf.credentials c;
     Conf.checkpoint_restore := Conf.checkpoint_restore c |}.

Definition secretfile (path : string) (c : Conf.t) : Conf.t :=
  {| Conf.secretfile := path; Conf.simulate := Conf.simulate c;
     Conf.profile := Conf.profile c; Conf.verbose := Conf.verbose c;
     Conf.address := Conf.address c; Conf.volsize := Conf.volsize c;
     Conf.s3_parallel_uploads := Conf.s3_parallel_uploads c;
     Conf.full_backup := Conf.full_backup c;
     Conf.backup_skip_files := Conf.backup_skip_files c;
     Conf.backup_skip_database := Conf.backup_skip_database c;
     Conf.backup_skip_packages := Conf.backup_skip_packages c;
     Conf.overrides := Conf.overrides c;
     Conf.credentials := Conf.credentials c;
     Conf.checkpoint_restore := Conf.checkpoint_restore c |}.

Definition volsize (n : Z) (c : Conf.t) : Conf.t :=
  {| Conf.secretfile := Conf.secretfile c; Conf.simulate := Conf.simulate c;
     Conf.profile := Conf.profile c; Conf.verbose := Conf.verbose c;
     Conf.address := Conf.address c; Conf.volsize := n;
     Conf.s3_parallel_uploads := Conf.s3_parallel_uploads c;
     Conf.full_backup := Conf.full_backup c;
     Conf.backup_skip_files := Conf.backup_skip_files c;
     Conf.backup_skip_database := Conf.backup_skip_database c;
     Conf.backup_skip_packages := Conf.backup_skip_packages c;
     Conf.overrides := Conf.overrides c;
     Conf.credentials := Conf.credentials c;
     Conf.checkpoint_restore := Conf.checkpoint_restore c |}.

Definition s3_parallel_uploads (n : Z) (c : Conf.t) : Conf.t :=
  {| Conf.secretfile := Conf.secretfile c; Conf.simulate := Conf.simulate c;
     Conf.profile := Conf.profile c; Conf.verbose := Conf.verbose c;
     Conf.address := Conf.address c; Conf.volsize := Conf.volsize c;
     Conf.s3_parallel_uploads := n;
     Conf.full_backup := Conf.full_backup c;
     Conf.backup_skip_files := Conf.backup_skip_files c;
     Conf.backup_skip_database := Conf.backup_skip_database c;
     Conf.backup_skip_packages := Conf.backup_skip_packages c;
     Conf.overrides := Conf.overrides c;
     Conf.credentials := Conf.credentials c;
     Conf.checkpoint_restore := Conf.checkpoint_restore c |}.

Definition full_backup (f : string) (c : Conf.t) : Conf.t :=
  {| Conf.secretfile := Conf.secretfile c; Conf.simulate := Conf.simulate c;
     Conf.profile := Conf.profile c; Conf.verbose := Conf.verbose c;
     Conf.address := Conf.address c; Conf.volsize := Conf.volsize c;
     Conf.s3_parallel_uploads := Conf.s3_parallel_uploads c;
     Conf.full_backup := f;
     Conf.backup_skip_files := Conf.backup_skip_files c;
     Conf.backup_skip_database := Conf.backup_skip_database c;
     Conf.backup_skip_packages := Conf.backup_skip_packages c;
     Conf.overrides := Conf.overrides c;
     Conf.credentials := Conf.credentials c;
     Conf.checkpoint_restore := Conf.checkpoint_restore c |}.

Definition backup_skip_files (b : bool) (c : Conf.t) : Conf.t :=
  {| Conf.secretfile := Conf.secretfile c; Conf.simulate := Conf.simulate c;
     Conf.profile := Conf.profile c; Conf.verbose := Conf.verbose c;
     Conf.address := Conf.address c; Conf.volsize := Conf.volsize c;
     Conf.s3_parallel_uploads := Conf.s3_parallel_uploads c;
     Conf.full_backup := Conf.full_backup c;
     Conf.backup_skip_files := b;
     Conf.backup_skip_database := Conf.backup_skip_database c;
     Conf.backup_skip_packages := Conf.backup_skip_packages c;
     Conf.overrides := Conf.overrides c;
     Conf.credentials := Conf.credentials c;
     Conf.checkpoint_restore := Conf.checkpoint_restore c |}.

Definition backup_skip_database (b : bool) (c : Conf.t) : Conf.t :=
  {| Conf.secretfile := Conf.secretfile c; Conf.simulate := Conf.simulate c;
     Conf.profile := Conf.profile c; Conf.verbose := Conf.verbose c;
     Conf.address := Conf.address c; Conf.volsize := Conf.volsize c;
     Conf.s3_parallel_uploads := Conf.s3_parallel_uploads c;
     Conf.full_backup := Conf.full_backup c;
     Conf.backup_skip_files := Conf.backup_skip_files c;
     Conf.backup_skip_database := b;
     Conf.backup_skip_packages := Conf.backup_skip_packages c;
     Conf.overrides := Conf.overrides c;
     Conf.credentials := Conf.credentials c;
     Conf.checkpoint_restore := Conf.checkpoint_restore c |}.

Definition backup_skip_packages (b : bool) (c : Conf.t) : Conf.t :=
  {| Conf.secretfile := Conf.secretfile c; Conf.simulate := Conf.simulate c;
     Conf.profile := Conf.profile c; Conf.verbose := Conf.verbose c;
     Conf.address := Conf.address c; Conf.volsize := Conf.volsize c;
     Conf.s3_parallel_uploads := Conf.s3_parallel_uploads c;
     Conf.full_backup := Conf.full_backup c;
     Conf.backup_skip_files := Conf.backup_skip_files c;
     Conf.backup_skip_database := Conf.backup_skip_database c;
     Conf.backup_skip_packages := b;
     Conf.overrides := Conf.overrides c;
     Conf.credentials := Conf.credentials c;
     Conf.checkpoint_restore := Conf.checkpoint_restore c |}.

Definition overrides (o : list string) (c : Conf.t) : Conf.t :=
  {| Conf.secretfile := Conf.secretfile c; Conf.simulate := Conf.simulate c;
     Conf.profile := Conf.profile c; Conf.verbose := Conf.verbose c;
     Conf.address := Conf.address c; Conf.volsize := Conf.volsize c;
     Conf.s3_parallel_uploads := Conf.s3_parallel_uploads c;
     Conf.full_backup := Conf.full_backup c;
     Conf.backup_skip_files := Conf.backup_skip_files c;
     Conf.backup_skip_database := Conf.backup_skip_database c;
     Conf.backup_skip_packages := Conf.backup_skip_packages c;
     Conf.overrides := o;
     Conf.credentials := Conf.credentials c;
     Conf.checkpoint_restore := Conf.checkpoint_restore c |}.

End Assign.

(** Modelled from the spec: [Conf()] (the built-in defaults merged with the
    configuration file), the path of the secret file kept by the registry,
    the two file tests and Python's [repr] are not part of the sources; nor
    is the [Conf] class, whose attribute assignments convert the values of
    [--volsize], [--s3-parallel-uploads] and [--full-backup] and may raise
    on a value they do not accept. *)
Record Cli := {
  conf_default : Conf.t;                          (* Conf() *)
  path_secret : string;                           (* registry.path.secret *)
  file_exists : string -> bool;                   (* os.path.exists *)
  is_writeable : string -> bool;                  (* utils.is_writeable *)
  repr : string -> string;                        (* `val` *)
  to_volsize : string -> result Z;
  to_s3_parallel_uploads : string -> result Z;
  to_full_backup : string -> result string
}.

(** The locals of [main] that the option loop fills.  [opt_resume] starts
    as [None] and is only ever tested for truth; it is [false] here. *)
Module Locals.
Record t := {
  conf : Conf.t;
  opt_debug : bool;
  opt_resume : bool;
  opt_logfile : string
}.

Definition with_conf (f : Conf.t -> Conf.t) (l : t) : t :=
  {| conf := f (conf l); opt_debug := opt_debug l;
     opt_resume := opt_resume l; opt_logfile := opt_logfile l |}.

Definition set_opt_debug (b : bool) (l : t) : t :=
  {| conf := conf l; opt_debug := b;
     opt_resume := opt_resume l; opt_logfile := opt_logfile l |}.

Definition set_opt_resume (b : bool) (l : t) : t :=
  {| conf := conf l; opt_debug := opt_debug l;
     opt_resume := b; opt_logfile := opt_logfile l |}.

Definition set_opt_logfile (path : string) (l : t) : t :=
  {| conf := conf l; opt_debug := opt_debug l;
     opt_resume := opt_resume l; opt_logfile := path |}.
End Locals.

(** The ways the option loop ends the program. *)
Inductive stop : Type :=
| Usage (e : option string)     (* usage(e): the error if any, the usage text, sys.exit(1) *)
| Fatal (msg : string)          (* fatal(msg) *)
| Uncaught (e : exn).           (* an exception raised by an assignment to conf *)

Inductive outcome (A : Type) : Type :=
| Continue (a : A)
| Stop (why : stop).
Arguments Stop {A} why.

Definition PATH_LOGFILE : string := "/var/log/tklbam-backup".

(** One pass through the body of the loop (lines 169-216). *)
Definition option_step (cli : Cli) (l : Locals.t) (o : string * string)
  : outcome Locals.t :=
  let '(opt, val) := o in
  let l := if (opt =? "-s") || (opt =? "--simulate")
           then Locals.with_conf (Assign.simulate true) l
           else l in
  if opt =? "--resume" then
    Continue (Locals.set_opt_resume true l)
  else if opt =? "--profile" then
    Continue (Locals.with_conf (Conf.set_profile (Some (ProfilePath val))) l)
  else if (opt =? "-q") || (opt =? "--quiet") then
    Continue (Locals.with_conf (Assign.verbose false) l)
  else if opt =? "--secretfile" then
    if negb (file_exists cli val)
    then Stop (Usage (Some ("secretfile " ++ repr cli val
                             ++ " does not exist")%string))
    else Continue (Locals.with_conf (Assign.secretfile val) l)
  else if opt =? "--address" then
    Continue (Locals.with_conf (Conf.set_address (Some val)) l)
  else if opt =? "--volsize" then
    match to_volsize cli val with
    | Ok n => Continue (Locals.with_conf (Assign.volsize n) l)
    | Raise e => Stop (Uncaught e)
    end
  else if opt =? "--s3-parallel-uploads" then
    match to_s3_parallel_uploads cli val with
    | Ok n => Continue (Locals.with_conf (Assign.s3_parallel_uploads n) l)
    | Raise e => Stop (Uncaught e)
    end
  else if opt =? "--full-backup" then
    match to_full_backup cli val with
    | Ok f => Continue (Locals.with_conf (Assign.full_backup f) l)
    | Raise e => Stop (Uncaught e)
    end
  else if opt =? "--logfile" then
    if negb (is_writeable cli val)
    then Stop (Fatal ("logfile '" ++ val ++ "' is not writeable")%string)
    else Continue (Locals.set_opt_logfile val l)
  else if opt =? "--debug" then
    Continue (Locals.set_opt_debug true l)
  else if opt =? "--skip-files" then
    Continue (Locals.with_conf (Assign.backup_skip_files true) l)
  else if opt =? "--skip-database" then
    Continue (Locals.with_conf (Assign.backup_skip_database true) l)
  else if opt =? "--skip-packages" then
    Continue (Locals.with_conf (Assign.backup_skip_packages true) l)
  else if (opt =? "-h") || (opt =? "--help") then
    Stop (Usage None)
  else Continue l.

(** [for opt, val in opts] (line 168) *)
Fixpoint option_loop (cli : Cli) (opts : list (string * string))
         (l : Locals.t) : outcome Locals.t :=
  match opts with
  | [] => Continue l
  | o :: opts' =>
      match option_step cli l o with
      | Continue l' => option_loop cli opts' l'
      | Stop why => Stop why
      end
  end.

(** The locals before the loop (lines 161-166). *)
Definition initial (cli : Cli) : Locals.t :=
  {| Locals.conf := Assign.secretfile (path_secret cli) (conf_default cli);
     Locals.opt_debug := false;
     Locals.opt_resume := false;
     Locals.opt_logfile := PATH_LOGFILE |}.

(** Lines 148-218.  [getopt.gnu_getopt] belongs to Python's library; its
    answer is the argument: the message of a [GetoptError], or the options
    with their values and the remaining arguments. *)
Definition options (cli : Cli)
           (argv : string + list (string * string) * list string)
  : outcome Locals.t :=
  match argv with
  | inl e => Stop (Usage (Some e))
  | inr (opts, args) =>
      match option_loop cli opts (initial cli) with
      | Continue l =>
          Continue
            (Locals.with_conf
               (fun c => Assign.overrides (Conf.overrides c ++ args) c) l)
      | Stop why => Stop why
      end
  end.

(** What the command line asks for: the value of the last option called
    [name], and whether an option with one of the [names] is given. *)
Definition last_value (name : string) (opts : list (string * string))
  : option string :=
  option_map snd (find (fun o => fst o =? name) (rev opts)).

Definition given (names : list string) (opts : list (string * string))
  : bool :=
  existsb (fun o => existsb (String.eqb (fst o)) names) opts.

(** ** Sample installations

    Concrete collaborators, configurations and registries on which the
    statements below are exercised. *)

Module Sample.

Definition stock_profile : Profile :=
  {| timestamp := 1350000000; profile_id := "turnkey-core-12.0" |}.

Definition keys : Credentials :=
  {| accesskey := "AKIAEXAMPLE"; secretkey := "secret" |}.

Definition cached_record : BackupRecord.t :=
  {| BackupRecord.backup_id := "7";
     BackupRecord.address := "s3://s3.amazonaws.com/tklbam-7";
     BackupRecord.key := "k7" |}.

Definition new_record : BackupRecord.t :=
  {| BackupRecord.backup_id := "8";
     BackupRecord.address := "s3://s3.amazonaws.com/tklbam-8";
     BackupRecord.key := "k8" |}.

(** A Hub that answers every request. *)
Definition hub_up : Hub :=
  {| get_new_profile := fun _ _ => Ok (Some stock_profile);
     get_credentials := Ok keys;
     get_backup_record := fun _ => Ok cached_record;
     new_backup_record := fun _ _ _ => Ok new_record;
     set_backup_inprogress := fun _ _ => Ok tt;
     updated_backup := fun _ => Ok tt |}.

(** A Hub that cannot be reached. *)
Definition hub_down : Hub :=
  let e := HubError "connection refused" in
  {| get_new_profile := fun _ _ => Raise e;
     get_credentials := Raise e;
     get_backup_record := fun _ => Raise e;
     new_backup_record := fun _ _ _ => Raise e;
     set_backup_inprogress := fun _ _ => Raise e;
     updated_backup := fun _ => Raise e |}.

(** A Hub that no longer knows the cached backup record. *)
Definition hub_forgot : Hub :=
  {| get_new_profile := fun _ _ => Ok None;
     get_credentials := Ok keys;
     get_backup_record := fun _ => Raise (InvalidBackupError "invalid backup id");
     new_backup_record := fun _ _ _ => Ok new_record;
     set_backup_inprogress := fun _ _ => Ok tt;
     updated_backup := fun _ => Ok tt |}.


Definition host : Host :=
  {| turnkey_version := "turnkey-core-12.0-squeeze-x86";
     server_conf := [("serverid", "1-example")];
     locked := false;
     hooks_backup_pre := Ok tt;
     hooks_backup_post := Ok tt;
     backup_run := fun _ _ _ => Ok tt |}.

(** The same host with an engine that fails. *)
Definition host_failing : Host :=
  {| turnkey_version := turnkey_version host;
     server_conf := server_conf host;
     locked := false;
     hooks_backup_pre := Ok tt;
     hooks_backup_post := Ok tt;
     backup_run := fun _ _ _ => Raise (Exception "duplicity failed") |}.

(** The same host with a pre hook that fails. *)
Definition host_hook_failing : Host :=
  {| turnkey_version := turnkey_version host;
     server_conf := server_conf host;
     locked := false;
     hooks_backup_pre := Raise (Exception "hook failed");
     hooks_backup_post := Ok tt;
     backup_run := fun _ _ _ => Ok tt |}.

Definition conf : Conf.t :=
  {| Conf.secretfile := "/var/lib/tklbam/secret";
     Conf.simulate := false;
     Conf.profile := None;
     Conf.verbose := true;
     Conf.address := None;
     Conf.volsize := 50;
     Conf.s3_parallel_uploads := 1;
     Conf.full_backup := "1M";
     Conf.backup_skip_files := false;
     Conf.backup_skip_database := false;
     Conf.backup_skip_packages := false;
     Conf.overrides := ["/etc/foo"; "mysql:shop/orders"];
     Conf.credentials := None;
     Conf.checkpoint_restore := false |}.

Definition with_simulate (c : Conf.t) : Conf.t :=
  {| Conf.secretfile := Conf.secretfile c;
     Conf.simulate := true;
     Conf.profile := Conf.profile c;
     Conf.verbose := Conf.verbose c;
     Conf.address := Conf.address c;
     Conf.volsize := Conf.volsize c;
     Conf.s3_parallel_uploads := Conf.s3_parallel_uploads c;
     Conf.full_backup := Conf.full_backup c;
     Conf.backup_skip_files := Conf.backup_skip_files c;
     Conf.backup_skip_database := Conf.backup_skip_database c;
     Conf.backup_skip_packages := Conf.backup_skip_packages c;
     Conf.overrides := Conf.overrides c;
     Conf.credentials := Conf.credentials c;
     Conf.checkpoint_restore := Conf.checkpoint_restore c |}.

(** [--address=file:///mnt/backup] *)
Definition manual : Conf.t :=
  Conf.set_address (Some "file:///mnt/backup") conf.

Definition empty : Registry.t :=
  {| Registry.sub_apikey := "APIKEY";
     Registry.key := "passphrase-key";
     Registry.profile := None;
     Registry.credentials := None;
     Registry.hbr := None;
     Registry.backup_resume_conf := None |}.

Definition cached : Registry.t :=
  {| Registry.sub_apikey := "APIKEY";
     Registry.key := "passphrase-key";
     Registry.profile := Some stock_profile;
     Registry.credentials := Some keys;
     Registry.hbr := Some cached_record;
     Registry.backup_resume_conf := None |}.

(** The registry of an interrupted session that went to another address. *)
Definition interrupted : Registry.t :=
  Registry.set_backup_resume_conf
    (Some (Conf.set_address (Some "s3://s3.amazonaws.com/tklbam-6") conf))
    cached.

Definition start (reg : Registry.t) : State :=
  {| registry := reg; trap := false |}.

(** A Hub client that fails outside the Hub's own errors. *)
Definition hub_broken : Hub :=
  let e := Exception "broken pipe" in
  {| get_new_profile := fun _ _ => Raise e;
     get_credentials := Raise e;
     get_backup_record := fun _ => Raise e;
     new_backup_record := fun _ _ _ => Raise e;
     set_backup_inprogress := fun _ _ => Raise e;
     updated_backup := fun _ => Raise e |}.

(** The same host while another backup holds the lock. *)
Definition host_locked : Host :=
  {| turnkey_version := turnkey_version host;
     server_conf := server_conf host;
     locked := true;
     hooks_backup_pre := Ok tt;
     hooks_backup_post := Ok tt;
     backup_run := fun _ _ _ => Ok tt |}.

(** [--profile=/etc/tklbam/profile] *)
Definition with_profile : Conf.t :=
  Conf.set_profile (Some (ProfilePath "/etc/tklbam/profile")) conf.

(** The registry of an interrupted session of [conf]. *)
Definition armed : Registry.t :=
  Registry.set_backup_resume_conf (Some conf) cached.

(** A command-line environment: one secret file exists besides the
    registry's, log files can be written under [/var/log/], and sizes are
    decimal numbers of at most two known spellings. *)
Definition cli : Cli :=
  {| conf_default := conf;
     path_secret := "/var/lib/tklbam/secret";
     file_exists := fun p => p =? "/root/secret";
     is_writeable := fun p => String.prefix "/var/log/" p;
     repr := fun s => ("'" ++ s ++ "'")%string;
     to_volsize :=
       fun v => if v =? "25" then Ok 25%Z
                else if v =? "100" then Ok 100%Z
                else Raise (Exception "volsize not a number");
     to_s3_parallel_uploads :=
       fun v => if v =? "4" then Ok 4%Z
                else Raise (Exception "s3-parallel-uploads not a number");
     to_full_backup :=
       fun v => if v =? "2W" then Ok "2W"
                else Raise (Exception "bad full-backup value") |}.

End Sample.

(** * Properties *)

Unset Implicit Arguments.
Local Arguments String.append : simpl never.

(** ** Tactics *)

(** Unfold the operations of the command monad. *)
Ltac unfold_cmd :=
  unfold try_except_hub, try_except, try_finally, bind, call, emit, ret, raise,
    when, pass, store_profile, store_credentials, store_hbr,
    store_backup_resume_conf, warn, fatal, print, get_registry, get_trap,
    set_trap, update_registry, hbr_backup_id, hbr_address in *.

(** Expose the fields of the state so that attribute reads compute. *)
Ltac open_state s :=
  let reg := fresh "reg" in
  let trp := fresh "trp" in
  destruct s as [reg trp]; destruct reg; cbn [registry trap
    Registry.sub_apikey Registry.key Registry.profile Registry.credentials
    Registry.hbr Registry.backup_resume_conf] in *.

(** [P] holds of every event outside the class [K]. *)
Ltac by_cases_on_event :=
  let ev := fresh "ev" in
  let H := fresh "H" in
  intros ev H; destruct ev; solve [reflexivity | discriminate H].

(** An invariant that does not mention the updated field. *)
Ltac unchanged := intros ? ? H; exact H.

(** ** Sequencing *)

Lemma bind_inv {A B} (m : M A) (f : A -> M B) s r s' t :
  bind m f s = (r, s', t) ->
  (exists e, m s = (Raise e, s', t) /\ r = Raise e)
  \/ (exists a s1 t1 t2,
         m s = (Ok a, s1, t1) /\ f a s1 = (r, s', t2) /\ t = t1 ++ t2).
Proof.
  unfold bind. destruct (m s) as [[[a|e] s1] t1].
  - destruct (f a s1) as [[r2 s2] t2] eqn:Hf. intros H. inversion H; subst.
    right. exists a, s1, t1, t2. auto.
  - intros H. inversion H; subst. left. exists e. auto.
Qed.

(** ** Rules for invariants *)

Section Rules.

Variable I : Registry.t -> Prop.
Variable P : event -> bool.

Lemma triple_ret {A} (a : A) : triple I P (ret a).
Proof. intros s r s' t H HI. inversion H; subst. auto. Qed.

Lemma triple_raise {A} (e : exn) : triple I P (@raise A e).
Proof. intros s r s' t H HI. inversion H; subst. auto. Qed.

Lemma triple_emit ev : P ev = true -> triple I P (emit ev).
Proof.
  intros HP s r s' t H HI. inversion H; subst. cbn. rewrite HP. auto.
Qed.

Lemma triple_call {A} ev (r : result A) : P ev = true -> triple I P (call ev r).
Proof.
  intros HP s r' s' t H HI. inversion H; subst. cbn. rewrite HP. auto.
Qed.

Lemma triple_get_registry : triple I P get_registry.
Proof. intros s r s' t H HI. inversion H; subst. auto. Qed.

Lemma triple_get_trap : triple I P get_trap.
Proof. intros s r s' t H HI. inversion H; subst. auto. Qed.

Lemma triple_set_trap b : triple I P (set_trap b).
Proof. intros s r s' t H HI. inversion H; subst. auto. Qed.

Lemma triple_update_registry f : stable I f -> triple I P (update_registry f).
Proof. intros Hf s r s' t H HI. inversion H; subst. cbn. auto. Qed.

Lemma triple_bind {A B} (m : M A) (f : A -> M B) :
  triple I P m -> (forall a, returns m a -> triple I P (f a)) ->
  triple I P (bind m f).
Proof.
  intros Hm Hf s r s' t H HI.
  apply bind_inv in H. destruct H as [(e & H & ->)|(a & s1 & t1 & t2 & H & H2 & ->)].
  - eapply Hm; eauto.
  - destruct (Hm _ _ _ _ H HI) as [HI1 HP1].
    assert (Hr : returns m a) by (exists s, s1, t1; exact H).
    destruct (Hf a Hr _ _ _ _ H2 HI1) as [HI2 HP2].
    split; [exact HI2|]. rewrite forallb_app, HP1, HP2. reflexivity.
Qed.

Lemma triple_try_except {A} (body : M A) handler :
  triple I P body -> (forall e, triple I P (handler e)) ->
  triple I P (try_except body handler).
Proof.
  intros Hb Hh s r s' t H HI. unfold try_except in H.
  destruct (body s) as [[[a|e] s1] t1] eqn:Hbody.
  - inversion H; subst. eapply Hb; eauto.
  - destruct (Hb _ _ _ _ Hbody HI) as [HI1 HP1].
    destruct (handler e s1) as [[r2 s2] t2] eqn:Hhandler.
    inversion H; subst.
    destruct (Hh e _ _ _ _ Hhandler HI1) as [HI2 HP2].
    split; [exact HI2|]. rewrite forallb_app, HP1, HP2. reflexivity.
Qed.

Lemma triple_try_except_hub {A} (body : M A) handler :
  triple I P body -> (forall e, triple I P (handler e)) ->
  triple I P (try_except_hub body handler).
Proof.
  intros Hb Hh. apply triple_try_except; [exact Hb|].
  intros e. destruct (is_hub_error e); [apply Hh|apply triple_raise].
Qed.

Lemma triple_try_finally {A} (body : M A) fin :
  triple I P body -> triple I P fin -> triple I P (try_finally body fin).
Proof.
  intros Hb Hf s r s' t H HI. unfold try_finally in H.
  destruct (body s) as [[r1 s1] t1] eqn:Hbody.
  destruct (Hb _ _ _ _ Hbody HI) as [HI1 HP1].
  destruct (fin s1) as [[[u|e] s2] t2] eqn:Hfin; inversion H; subst;
    destruct (Hf _ _ _ _ Hfin HI1) as [HI2 HP2];
    (split; [exact HI2|]); rewrite forallb_app, HP1, HP2; reflexivity.
Qed.

Lemma triple_when b (m : M unit) : triple I P m -> triple I P (when b m).
Proof. intros Hm. destruct b; [exact Hm|apply triple_ret]. Qed.

End Rules.

Lemma triple_weaken {A} (I : Registry.t -> Prop) (P P' : event -> bool) (m : M A) :
  accepts P' P -> triple I P m -> triple I P' m.
Proof.
  intros HP Hm s r s' t H HI. destruct (Hm _ _ _ _ H HI) as [HI' Ht].
  split; [exact HI'|]. rewrite forallb_forall in *. intros ev Hev. auto.
Qed.

(** ** Counting events *)

Lemma forallb_count_zero (K : event -> bool) (t : list event) :
  forallb (fun ev => negb (K ev)) t = true -> count K t = 0%nat.
Proof.
  unfold count. induction t as [|ev t IH]; cbn; [reflexivity|].
  intros H. apply andb_true_iff in H. destruct H as [Hev Ht].
  destruct (K ev); [discriminate|auto].
Qed.

Lemma count_app (K : event -> bool) (t1 t2 : list event) :
  count K (t1 ++ t2) = (count K t1 + count K t2)%nat.
Proof. unfold count. rewrite filter_app, length_app. reflexivity. Qed.

Lemma count_weaken (K L : event -> bool) t :
  accepts L K -> forallb (fun ev => negb (L ev)) t = true ->
  count K t = 0%nat.
Proof.
  intros HK Ht. apply forallb_count_zero.
  rewrite forallb_forall in *. intros ev Hev. specialize (Ht ev Hev).
  destruct (K ev) eqn:E; [|reflexivity].
  rewrite (HK ev E) in Ht. discriminate Ht.
Qed.

(** ** The timeline of a run *)

Lemma timeline_app t1 t2 : timeline (t1 ++ t2) = timeline t1 ++ timeline t2.
Proof. unfold timeline. apply filter_app. Qed.

Lemma timeline_quiet t :
  forallb (fun ev => negb (supervisor_event ev)) t = true -> timeline t = [].
Proof.
  unfold timeline. induction t as [|ev t IH]; cbn; [reflexivity|].
  intros H. apply andb_true_iff in H. destruct H as [Hev Ht].
  rewrite (IH Ht). destruct ev; solve [reflexivity | discriminate Hev].
Qed.

Lemma count_timeline (K : event -> bool) t :
  accepts (fun ev => is_inprogress ev || is_engine_run ev) K ->
  count K (timeline t) = count K t.
Proof.
  intros HK. unfold count, timeline.
  induction t as [|ev t IH]; cbn; [reflexivity|].
  destruct (K ev) eqn:Hev.
  - rewrite (HK ev Hev). cbn. rewrite Hev. cbn. rewrite IH. reflexivity.
  - destruct (is_inprogress ev || is_engine_run ev); cbn; rewrite ?Hev; exact IH.
Qed.

(** ** Proving invariants of composed commands *)

Ltac accept :=
  match goal with
  | H : accepts ?P _ |- ?P _ = true => apply H; reflexivity
  end.

Ltac triple_step :=
  match goal with
  | |- triple _ _ (bind _ _) => apply triple_bind; [|intros ? _]
  | |- triple _ _ (ret _) => apply triple_ret
  | |- triple _ _ (raise _) => apply triple_raise
  | |- triple _ _ pass => apply triple_ret
  | |- triple _ _ (when _ _) => apply triple_when
  | |- triple _ _ (try_except_hub _ _) => apply triple_try_except_hub; [|intros ?]
  | |- triple _ _ (try_except _ _) => apply triple_try_except; [|intros ?]
  | |- triple _ _ (try_finally _ _) => apply triple_try_finally
  | |- triple _ _ (emit _) => apply triple_emit; accept
  | |- triple _ _ (call _ _) => apply triple_call; accept
  | |- triple _ _ get_registry => apply triple_get_registry
  | |- triple _ _ get_trap => apply triple_get_trap
  | |- triple _ _ (set_trap _) => apply triple_set_trap
  | |- triple _ _ (update_registry _) => apply triple_update_registry; auto
  | |- triple _ _ (if ?b then _ else _) => destruct b
  | |- triple _ _ (match ?x with _ => _ end) => destruct x
  end.

Ltac triple_auto :=
  unfold store_profile, store_credentials, store_hbr, store_backup_resume_conf,
    warn, fatal, print, hbr_backup_id, hbr_address;
  repeat triple_step.

(** ** What the steps return *)

Lemma returns_ret {A} (a b : A) : returns (ret a) b -> b = a.
Proof. intros (s & s' & t & H). inversion H. reflexivity. Qed.

Lemma returns_bind {A B} (m : M A) (f : A -> M B) b :
  returns (bind m f) b -> exists a, returns m a /\ returns (f a) b.
Proof.
  intros (s & s' & t & H). apply bind_inv in H.
  destruct H as [(e & _ & He)|(a & s1 & t1 & t2 & Hm & Hf & _)];
    [discriminate He|].
  exists a. split; [exists s, s1, t1|exists s1, s', t2]; assumption.
Qed.

Ltac returns_last H :=
  repeat (apply returns_bind in H; destruct H as (? & _ & H));
  apply returns_ret in H.

Lemma negotiate_profile_returns hb host conf c :
  returns (negotiate_profile hb host conf) c ->
  Conf.address c = Conf.address conf /\ Conf.simulate c = Conf.simulate conf.
Proof.
  unfold negotiate_profile. intros H.
  destruct (negb (truthy (Conf.profile conf))); returns_last H; subst c;
    split; reflexivity.
Qed.

Lemma negotiate_returns hb host conf c :
  returns (negotiate hb host conf) c -> Conf.simulate c = Conf.simulate conf.
Proof.
  unfold negotiate. intros H.
  destruct (negb (truthy (Conf.address conf))).
  - apply returns_bind in H. destruct H as (c1 & H1 & H).
    unfold negotiate_credentials in H1. returns_last H1.
    unfold negotiate_backup_record in H. returns_last H.
    subst. reflexivity.
  - returns_last H. subst c. reflexivity.
Qed.

Lemma hub_negotiator_returns hb host conf c :
  returns (hub_negotiator hb host conf) c ->
  Conf.simulate c = Conf.simulate conf.
Proof.
  unfold hub_negotiator. intros H.
  do 4 (apply returns_bind in H; destruct H as (? & _ & H)).
  apply returns_bind in H. destruct H as (c1 & H1 & H).
  apply negotiate_profile_returns in H1. apply negotiate_returns in H.
  destruct H1 as [_ H1]. congruence.
Qed.

(** ** Invariants of the steps of [main] *)

Section Steps.

Variable hb : Hub.
Variable host : Host.
Variable I : Registry.t -> Prop.
Variable P : event -> bool.

Hypothesis I_profile : forall p, stable I (Registry.set_profile p).
Hypothesis I_credentials : forall c, stable I (Registry.set_credentials c).
Hypothesis I_hbr : forall h, stable I (Registry.set_hbr h).
Hypothesis I_resume : forall c, stable I (Registry.set_backup_resume_conf c).

Hypothesis P_terminal : accepts P terminal_event.
Hypothesis P_setup : accepts P setup_event.
Hypothesis P_profile : accepts P profile_event.
Hypothesis P_negotiation : accepts P negotiation_event.
Hypothesis P_resume : accepts P is_store_resume.
Hypothesis P_trapped : accepts P trapped_event.
Hypothesis P_completion : accepts P completion_event.

Lemma triple_get_profile : triple I P (get_profile hb host).
Proof. unfold get_profile. triple_auto. Qed.

Lemma triple_acquire_lock : triple I P (acquire_lock host).
Proof. unfold acquire_lock. triple_auto. Qed.

Lemma triple_check_parallel_uploads conf :
  triple I P (check_parallel_uploads conf).
Proof. unfold check_parallel_uploads. triple_auto. Qed.

Lemma triple_negotiate_profile conf :
  triple I P (negotiate_profile hb host conf).
Proof. unfold negotiate_profile. triple_auto. apply triple_get_profile. Qed.

Lemma triple_negotiate_credentials conf :
  triple I P (negotiate_credentials hb conf).
Proof. unfold negotiate_credentials. triple_auto. Qed.

Lemma triple_negotiate_backup_record conf :
  triple I P (negotiate_backup_record hb host conf).
Proof. unfold negotiate_backup_record. triple_auto. Qed.

Lemma triple_resolve_session conf opt_resume :
  triple I P (resolve_session conf opt_resume).
Proof. unfold resolve_session. triple_auto. Qed.

Lemma triple_rearm conf : triple I P (rearm conf).
Proof. unfold rearm. triple_auto. Qed.

Lemma triple_run_trapped opt_debug opt_resume opt_logfile conf hub id :
  triple I P (run_trapped hb host opt_debug opt_resume opt_logfile conf hub id).
Proof. unfold run_trapped. triple_auto. Qed.

Lemma triple_supervise opt_debug opt_resume opt_logfile conf :
  triple I P (supervise hb host opt_debug opt_resume opt_logfile conf).
Proof. unfold supervise. triple_auto; apply triple_run_trapped. Qed.


Lemma triple_negotiate conf : triple I P (negotiate hb host conf).
Proof.
  unfold negotiate. triple_auto;
    [apply triple_negotiate_credentials|apply triple_negotiate_backup_record].
Qed.

(** With a manual address the Hub negotiator only looks for a profile. *)
Lemma triple_hub_negotiator_manual conf :
  truthy (Conf.address conf) = true ->
  triple I P (hub_negotiator hb host conf).
Proof.
  intros Haddr. unfold hub_negotiator.
  apply triple_bind; [apply triple_acquire_lock|intros _ _].
  apply triple_bind; [apply triple_check_parallel_uploads|intros _ _].
  apply triple_bind; [apply triple_get_registry|intros reg _].
  apply triple_bind; [apply triple_emit; accept|intros _ _].
  apply triple_bind; [apply triple_negotiate_profile|].
  intros c Hc. apply negotiate_profile_returns in Hc. destruct Hc as [Hc _].
  unfold negotiate. rewrite Hc, Haddr. apply triple_ret.
Qed.

Lemma triple_hub_negotiator conf : triple I P (hub_negotiator hb host conf).
Proof.
  unfold hub_negotiator. triple_auto;
    [apply triple_acquire_lock|apply triple_check_parallel_uploads
    |apply triple_negotiate_profile|apply triple_negotiate].
Qed.

Lemma triple_prepare_manual conf opt_resume :
  truthy (Conf.address conf) = true ->
  triple I P (prepare hb host conf opt_resume).
Proof.
  intros Haddr. unfold prepare. triple_auto;
    [apply triple_hub_negotiator_manual; exact Haddr
    |apply triple_resolve_session|apply triple_rearm].
Qed.

Lemma triple_prepare conf opt_resume :
  triple I P (prepare hb host conf opt_resume).
Proof.
  unfold prepare. triple_auto;
    [apply triple_hub_negotiator|apply triple_resolve_session
    |apply triple_rearm].
Qed.

Lemma triple_main_manual conf opt_debug opt_resume opt_logfile :
  truthy (Conf.address conf) = true ->
  triple I P (main hb host conf opt_debug opt_resume opt_logfile).
Proof.
  intros Haddr. unfold main. triple_auto;
    [apply triple_prepare_manual; exact Haddr|apply triple_supervise].
Qed.

End Steps.

(** ** The run, phase by phase *)

(** Once the Hub negotiator has returned, the run is the session resolver
    followed by the supervisor. *)
Lemma main_after_negotiation hb host conf0 opt_debug opt_resume opt_logfile
      s0 conf s t0 :
  hub_negotiator hb host conf0 s0 = (Ok conf, s, t0) ->
  main hb host conf0 opt_debug opt_resume opt_logfile s0
  = let '(r, s', t) :=
      ('(c, rs) <- resolve_session conf opt_resume ;;
       rearm c ;;
       supervise hb host opt_debug rs opt_logfile c) s in
    (r, s', t0 ++ t).
Proof.
  intros Hneg. unfold main, prepare, bind, ret. rewrite Hneg.
  destruct (resolve_session conf opt_resume s) as [[[[c rs]|e] s1] t1];
    [|reflexivity].
  destruct (rearm c s1) as [[[u|e] s2] t2].
  - destruct (supervise hb host opt_debug rs opt_logfile c s2) as [[r s3] t3].
    cbv beta iota. rewrite <- !app_assoc. reflexivity.
  - cbv beta iota. rewrite <- ?app_assoc. reflexivity.
Qed.

(** Once the session is resolved, the run is the supervisor. *)
Lemma main_after_prepare hb host conf0 opt_debug opt_resume0 opt_logfile
      s0 conf opt_resume s t0 :
  prepare hb host conf0 opt_resume0 s0 = (Ok (conf, opt_resume), s, t0) ->
  main hb host conf0 opt_debug opt_resume0 opt_logfile s0
  = let '(r, s', t) :=
      supervise hb host opt_debug opt_resume opt_logfile conf s in
    (r, s', t0 ++ t).
Proof. intros Hprep. unfold main, bind. rewrite Hprep. reflexivity. Qed.

(** Nothing of the supervisor happens before the session is resolved. *)
Lemma prepare_quiet hb host conf0 opt_resume0 s0 r s t0 :
  prepare hb host conf0 opt_resume0 s0 = (r, s, t0) ->
  forallb (fun ev => negb (supervisor_event ev)) t0 = true.
Proof.
  intros Hprep.
  assert (H : triple (fun _ => True) (fun ev => negb (supervisor_event ev))
                     (prepare hb host conf0 opt_resume0)).
  { apply triple_prepare; solve [unchanged | by_cases_on_event]. }
  destruct (H _ _ _ _ Hprep) as [_ Ht]; [exact Logic.I|exact Ht].
Qed.

(** Re-arming always succeeds. *)
Lemma rearm_run (conf : Conf.t) (s : State) :
  rearm conf s
  = (Ok tt,
     with_backup_resume_conf (if Conf.simulate conf then None else Some conf) s,
     StoreBackupResumeConf None
       :: (if Conf.simulate conf then []
           else [StoreBackupResumeConf (Some conf)])).
Proof.
  unfold rearm, with_backup_resume_conf. repeat unfold_cmd.
  destruct (Conf.simulate conf); reflexivity.
Qed.

(** Line 296 with no backup record in the registry. *)
Lemma supervise_without_record hb host opt_debug opt_resume opt_logfile conf s :
  Registry.hbr (registry s) = None ->
  supervise hb host opt_debug opt_resume opt_logfile conf s
  = (Raise (AttributeError "'NoneType' object has no attribute 'backup_id'"),
     s, []).
Proof.
  intros Hnone. unfold supervise. repeat unfold_cmd. cbv beta iota.
  rewrite Hnone. reflexivity.
Qed.

(** The supervisor, given the outcome of the trapped run. *)
Lemma supervise_run hb host opt_debug opt_resume opt_logfile conf s rec
      rt s1 t1 :
  Registry.hbr (registry s) = Some rec ->
  run_trapped hb host opt_debug opt_resume opt_logfile conf
              (is_hub_address conf (registry s)) (BackupRecord.backup_id rec) s
  = (rt, s1, t1) ->
  supervise hb host opt_debug opt_resume opt_logfile conf s
  = match rt with
    | Raise e =>
        (Raise e, s1,
         EngineNew conf opt_resume
           :: t1 ++ (if Conf.checkpoint_restore conf then []
                     else [EngineCleanup]))
    | Ok _ =>
        if Conf.simulate conf
        then (Ok tt, with_backup_resume_conf None s1,
              EngineNew conf opt_resume
                :: t1 ++ [Print "Completed --simulate: Leaving /TKLBAM intact so you can manually inspect it";
                          StoreBackupResumeConf None])
        else (updated_backup hb (Conf.address conf),
              with_backup_resume_conf None s1,
              EngineNew conf opt_resume
                :: t1 ++ [EngineCleanup; StoreBackupResumeConf None;
                          HubUpdatedBackup (Conf.address conf)])
    end.
Proof.
  intros Hrec Hrun. unfold supervise.
  unfold bind at 1. unfold get_registry at 1. cbv beta iota.
  rewrite Hrec. unfold hbr_backup_id.
  unfold bind at 1. unfold ret at 1. cbv beta iota.
  unfold bind at 1. unfold emit at 1. cbv beta iota.
  unfold bind at 1. unfold try_except. rewrite Hrun.
  destruct rt as [[]|e].
  - repeat unfold_cmd. cbv beta iota.
    destruct (Conf.simulate conf); cbn [negb]; cbv beta iota;
      rewrite ?app_nil_r; reflexivity.
  - repeat unfold_cmd.
    destruct (Conf.checkpoint_restore conf); cbn; rewrite ?app_nil_r;
      reflexivity.
Qed.

(** What the trapped run contributes to the timeline, whatever its
    outcome. *)
Lemma run_trapped_timeline hb host opt_debug opt_resume opt_logfile conf
      hub id s r s1 t1 :
  run_trapped hb host opt_debug opt_resume opt_logfile conf hub id s
  = (r, s1, t1) ->
  timeline t1
  = match hooks_backup_pre host with
    | Ok _ =>
        if hub
        then HubSetBackupInprogress id true
               :: match set_backup_inprogress hb id true with
                  | Ok _ => [EngineRun opt_debug]
                  | Raise _ => []
                  end
        else [EngineRun opt_debug]
    | Raise _ => []
    end
    ++ (if hub then [HubSetBackupInprogress id false] else []).
Proof.
  unfold run_trapped. repeat unfold_cmd. cbv beta iota.
  destruct (hooks_backup_pre host) as [[]|e0]; destruct hub;
    cbv beta iota;
    repeat match goal with
      | |- context [match ?x with Ok _ => _ | Raise _ => _ end] =>
          match x with
          | set_backup_inprogress _ _ _ => destruct x as [[]|?]
          | backup_run _ _ _ _ => destruct x as [[]|?]
          | hooks_backup_post _ => destruct x as [[]|?]
          end; cbv beta iota
      | |- context [if opt_debug then _ else _] => destruct opt_debug; cbv beta iota
      end.
  all: intros H; inversion H; subst; clear H; try reflexivity.

Qed.

(** The trapped run neither builds nor cleans the engine. *)
Lemma run_trapped_no_completion hb host opt_debug opt_resume opt_logfile conf
      hub id s r s1 t1 :
  run_trapped hb host opt_debug opt_resume opt_logfile conf hub id s
  = (r, s1, t1) ->
  forallb (fun ev => negb (completion_event ev)) t1 = true.
Proof.
  intros Hrun.
  assert (H : triple (fun _ => True) (fun ev => negb (completion_event ev))
                     (run_trapped hb host opt_debug opt_resume opt_logfile
                                  conf hub id)).
  { apply triple_run_trapped; by_cases_on_event. }
  destruct (H _ _ _ _ Hrun) as [_ Ht]; [exact Logic.I|exact Ht].
Qed.

(** An exception of the engine escapes the trapped run whenever the Hub
    calls around it return. *)
Lemma engine_failure_escapes hb host opt_debug opt_resume opt_logfile conf
      hub id s e :
  hooks_backup_pre host = Ok tt ->
  (hub = true ->
   set_backup_inprogress hb id true = Ok tt
   /\ set_backup_inprogress hb id false = Ok tt) ->
  backup_run host conf opt_resume opt_debug = Raise e ->
  exists s1 t1,
    run_trapped hb host opt_debug opt_resume opt_logfile conf hub id s
    = (Raise e, s1, t1).
Proof.
  intros Hpre Hhub Hrun. unfold run_trapped. repeat unfold_cmd.
  cbv beta iota. rewrite Hpre.
  destruct hub; [destruct (Hhub eq_refl) as [Hstart Hstop]|];
    destruct opt_debug; cbv beta iota;
    rewrite ?Hstart, ?Hrun; cbv beta iota; rewrite ?Hstop;
    do 2 eexists; reflexivity.
Qed.

(** The timeline of a whole run that reaches the supervisor is that of its
    trapped part. *)
Lemma main_timeline hb host conf0 opt_debug opt_resume0 opt_logfile s0
      conf opt_resume s t0 rec r s' t :
  prepare hb host conf0 opt_resume0 s0 = (Ok (conf, opt_resume), s, t0) ->
  Registry.hbr (registry s) = Some rec ->
  main hb host conf0 opt_debug opt_resume0 opt_logfile s0 = (r, s', t) ->
  exists rt s1 t1,
    run_trapped hb host opt_debug opt_resume opt_logfile conf
                (is_hub_address conf (registry s))
                (BackupRecord.backup_id rec) s
    = (rt, s1, t1)
    /\ timeline t = timeline t1.
Proof.
  intros Hprep Hrec Hmain.
  destruct (run_trapped hb host opt_debug opt_resume opt_logfile conf
                        (is_hub_address conf (registry s))
                        (BackupRecord.backup_id rec) s)
    as [[rt s1] t1] eqn:Hrun.
  exists rt, s1, t1. split; [reflexivity|].
  erewrite main_after_prepare in Hmain by exact Hprep.
  erewrite supervise_run in Hmain; [|exact Hrec|exact Hrun].
  pose proof (timeline_quiet _ (prepare_quiet _ _ _ _ _ _ _ _ Hprep)) as Hq.
  destruct rt as [[]|e];
    [destruct (Conf.simulate conf)|destruct (Conf.checkpoint_restore conf)];
    inversion Hmain; subst; clear Hmain;
    rewrite timeline_app, Hq;
    change (EngineNew conf opt_resume :: t1 ++ ?x)
      with ([EngineNew conf opt_resume] ++ t1 ++ x);
    rewrite !timeline_app; cbn; rewrite ?app_nil_r; reflexivity.
Qed.

(** ** The negotiation, outcome by outcome *)

(** Lines 235-249, outcome by outcome of the Hub's answer. *)
Lemma negotiate_credentials_run (hb : Hub) (conf : Conf.t) (s : State) :
  negotiate_credentials hb conf s
  = match get_credentials hb with
    | Ok c =>
        (Ok (Conf.set_credentials (Some c) conf),
         with_registry (Registry.set_credentials (Some c)) s,
         [HubGetCredentials; StoreCredentials (Some c)])
    | Raise e =>
        if is_hub_error e
        then if is_not_subscribed e
             then (Raise (SystemExit 1), s, [HubGetCredentials; Error (str e)])
             else (Ok (Conf.set_credentials
                         (Registry.credentials (registry s)) conf),
                   s, [HubGetCredentials; Warn (str e)])
        else (Raise e, s, [HubGetCredentials])
    end.
Proof.
  open_state s. unfold negotiate_credentials, with_registry.
  repeat unfold_cmd. cbv beta iota.
  destruct (get_credentials hb) as [c|e]; [reflexivity|].
  destruct (is_hub_error e); [|reflexivity].
  destruct (is_not_subscribed e); [reflexivity|].
  destruct credentials; reflexivity.
Qed.

(** Lines 251-272, outcome by outcome of the Hub's answers. *)
Lemma negotiate_backup_record_run (hb : Hub) (host : Host) (conf : Conf.t)
      (s : State) :
  let key := Registry.key (registry s) in
  let create :=
    HubNewBackupRecord key (turnkey_version host) (get_server_id host) in
  let created :=
    new_backup_record hb key (turnkey_version host) (get_server_id host) in
  let to_address r := Conf.set_address (Some (BackupRecord.address r)) conf in
  let fresh t0 :=
    match created with
    | Ok r =>
        (Ok (to_address r), with_registry (Registry.set_hbr (Some r)) s,
         t0 ++ [create; StoreHbr (Some r)])
    | Raise e =>
        (Raise e, with_registry (Registry.set_hbr None) s, t0 ++ [create])
    end in
  negotiate_backup_record hb host conf s
  = match Registry.hbr (registry s) with
    | None =>
        match created with
        | Ok r =>
            (Ok (to_address r), with_registry (Registry.set_hbr (Some r)) s,
             [create; StoreHbr (Some r)])
        | Raise e => (Raise e, s, [create])
        end
    | Some old =>
        let revalidate := HubGetBackupRecord (BackupRecord.backup_id old) in
        match get_backup_record hb (BackupRecord.backup_id old) with
        | Ok r =>
            (Ok (to_address r), with_registry (Registry.set_hbr (Some r)) s,
             [revalidate; StoreHbr (Some r)])
        | Raise e =>
            if is_hub_error e
            then if is_invalid_backup e
                 then fresh [revalidate;
                             Warn "old backup record deleted, creating new ... ";
                             StoreHbr None]
                 else (Ok (to_address old), s, [revalidate; Warn (str e)])
            else (Raise e, s, [revalidate])
        end
    end.
Proof.
  open_state s. cbv zeta. unfold negotiate_backup_record, get_turnkey_version,
    with_registry.
  repeat unfold_cmd. cbv beta iota.
  destruct hbr as [old|]; cbn.
  - destruct (get_backup_record hb (BackupRecord.backup_id old)) as [r|e];
      [reflexivity|].
    destruct (is_hub_error e); [|reflexivity].
    destruct (is_invalid_backup e); [|reflexivity]. cbn.
    destruct (new_backup_record hb key (turnkey_version host) (get_server_id host));
      reflexivity.
  - destruct (new_backup_record hb key (turnkey_version host) (get_server_id host));
      reflexivity.
Qed.

(** ** Taking a run apart *)

Lemma acquire_lock_inv host s r s' t :
  acquire_lock host s = (Ok r, s', t) ->
  locked host = false /\ s' = s /\ t = [LockAcquired].
Proof.
  unfold acquire_lock. destruct (locked host); repeat unfold_cmd;
    intros H; inversion H; auto.
Qed.

Lemma check_parallel_uploads_state conf s r s' t :
  check_parallel_uploads conf s = (r, s', t) -> r = Ok tt /\ s' = s.
Proof.
  unfold check_parallel_uploads, when, warn, emit, ret.
  destruct (_ && _); intros H; inversion H; auto.
Qed.

Lemma hub_negotiator_inv hb host conf0 s0 c1 s1 t1 :
  hub_negotiator hb host conf0 s0 = (Ok c1, s1, t1) ->
  locked host = false
  /\ exists c s t t',
      negotiate_profile hb host conf0 s0 = (Ok c, s, t)
      /\ negotiate hb host c s = (Ok c1, s1, t').
Proof.
  unfold hub_negotiator. intros H.
  apply bind_inv in H.
  destruct H as [(e & _ & He)|(u & sa & ta & ta' & Hlock & H & _)];
    [discriminate He|].
  apply acquire_lock_inv in Hlock. destruct Hlock as (Hlock & -> & _).
  apply bind_inv in H.
  destruct H as [(e & _ & He)|(u' & sb & tb & tb' & Hcheck & H & _)];
    [discriminate He|].
  apply check_parallel_uploads_state in Hcheck. destruct Hcheck as [_ ->].
  repeat unfold_cmd. cbv beta iota in H.
  destruct (negotiate_profile hb host conf0 s0) as [[[c|e] s] t] eqn:Hprof;
    [|discriminate H].
  destruct (negotiate hb host c s) as [[r s2] t2] eqn:Hneg.
  inversion H; subst. split; [exact Hlock|].
  exists c, s, t, t2. split; [reflexivity|assumption].
Qed.

(** The resolver reads the registry and writes nothing. *)
Lemma resolve_session_state conf opt_resume s r s' t :
  resolve_session conf opt_resume s = (r, s', t) -> s' = s.
Proof.
  unfold resolve_session. repeat unfold_cmd. cbv beta iota.
  destruct opt_resume; [destruct (Conf.simulate conf)|];
    cbv beta iota;
    repeat match goal with
      | |- context [match ?x with Some _ => _ | None => _ end] =>
          destruct x; cbv beta iota
      | |- context [if ?b then _ else _] => destruct b; cbv beta iota
      end;
    intros H; inversion H; reflexivity.
Qed.

(** Without [--resume] the resolver keeps the negotiated configuration. *)
Lemma resolve_session_implicit conf s c rs s' t :
  resolve_session conf false s = (Ok (c, rs), s', t) -> c = conf.
Proof.
  unfold resolve_session. repeat unfold_cmd. cbv beta iota.
  destruct (_ && _); cbv beta iota; intros H; inversion H; reflexivity.
Qed.

Lemma prepare_inv hb host conf0 opt_resume0 s0 conf opt_resume s t :
  prepare hb host conf0 opt_resume0 s0 = (Ok (conf, opt_resume), s, t) ->
  exists c1 s1 t1 t2,
    hub_negotiator hb host conf0 s0 = (Ok c1, s1, t1)
    /\ resolve_session c1 opt_resume0 s1 = (Ok (conf, opt_resume), s1, t2)
    /\ s = with_backup_resume_conf
             (if Conf.simulate conf then None else Some conf) s1.
Proof.
  unfold prepare. intros H.
  apply bind_inv in H.
  destruct H as [(e & _ & He)|(c1 & s1 & t1 & t' & Hneg & H & _)];
    [discriminate He|].
  apply bind_inv in H.
  destruct H as [(e & _ & He)|([c2 rs2] & s2 & t2 & t'' & Hres & H & _)];
    [discriminate He|].
  unfold bind in H. rewrite rearm_run in H. unfold ret in H.
  inversion H; subst; clear H.
  pose proof (resolve_session_state _ _ _ _ _ _ Hres) as ->.
  exists c1, s1, t1, t2. repeat split; assumption.
Qed.

(** What the negotiation of lines 234-272 leaves behind when the address
    is not given: a record in the registry, and its address in the
    configuration. *)
Lemma negotiate_hub_managed hb host conf s c s' t :
  truthy (Conf.address conf) = false ->
  negotiate hb host conf s = (Ok c, s', t) ->
  exists r,
    Registry.hbr (registry s') = Some r
    /\ Conf.address c = Some (BackupRecord.address r)
    /\ Conf.credentials c = Registry.credentials (registry s')
    /\ Conf.simulate c = Conf.simulate conf.
Proof.
  intros Haddr. unfold negotiate. rewrite Haddr. cbn [negb]. intros H.
  apply bind_inv in H.
  destruct H as [(e & _ & He)|(c1 & s1 & t1 & t2 & Hcred & Hrec & _)];
    [discriminate He|].
  rewrite negotiate_credentials_run in Hcred.
  rewrite negotiate_backup_record_run in Hrec. cbv zeta in Hrec.
  assert (Hc1 : Conf.credentials c1 = Registry.credentials (registry s1)
                /\ Conf.simulate c1 = Conf.simulate conf).
  { destruct (get_credentials hb) as [k|e];
      [|destruct (is_hub_error e); [destruct (is_not_subscribed e)|]];
      inversion Hcred; subst; split; reflexivity. }
  destruct Hc1 as [Hk Hsim]. clear Hcred.
  destruct (Registry.hbr (registry s1)) as [old|] eqn:Hold.
  - destruct (get_backup_record hb (BackupRecord.backup_id old)) as [r|e].
    + inversion Hrec; subst; clear Hrec. exists r. repeat split; assumption.
    + destruct (is_hub_error e); [destruct (is_invalid_backup e)|].
      * destruct (new_backup_record hb _ _ _) as [r|e'];
          inversion Hrec; subst; clear Hrec. exists r. repeat split; assumption.
      * inversion Hrec; subst; clear Hrec. exists old. repeat split; assumption.
      * discriminate Hrec.
  - destruct (new_backup_record hb _ _ _) as [r|e'];
      inversion Hrec; subst; clear Hrec. exists r. repeat split; assumption.
Qed.

(** A run that is not simulated, has no [--address] and no [--resume], and
    gets past line 293: the working configuration carries the address of
    the record in the registry. *)
Lemma prepare_hub_managed hb host conf0 s0 conf opt_resume s t0 :
  truthy (Conf.address conf0) = false ->
  Conf.simulate conf0 = false ->
  prepare hb host conf0 false s0 = (Ok (conf, opt_resume), s, t0) ->
  exists rec,
    Registry.hbr (registry s) = Some rec
    /\ Conf.simulate conf = false
    /\ Conf.address conf = Some (BackupRecord.address rec).
Proof.
  intros Haddr Hsim Hprep.
  destruct (prepare_inv _ _ _ _ _ _ _ _ _ Hprep)
    as (c1 & s1 & t1 & t2 & Hneg & Hres & ->).
  destruct (hub_negotiator_inv _ _ _ _ _ _ _ Hneg)
    as (_ & c & sp & tp & tn & Hprof & Hnego).
  assert (Hc : Conf.address c = Conf.address conf0
               /\ Conf.simulate c = Conf.simulate conf0).
  { apply (negotiate_profile_returns hb host). exists s0, sp, tp. exact Hprof. }
  destruct Hc as [Hca Hcs].
  destruct (negotiate_hub_managed _ _ _ _ _ _ _
              ltac:(rewrite Hca; exact Haddr) Hnego)
    as (rec & Hrec & Ha & _ & Hs1).
  apply resolve_session_implicit in Hres. subst conf.
  exists rec. split; [|split].
  - cbn. exact Hrec.
  - congruence.
  - exact Ha.
Qed.

(** Line 295, condition by condition. *)
Lemma is_hub_address_true conf reg rec :
  Registry.hbr reg = Some rec ->
  is_hub_address conf reg = true
  <-> Conf.simulate conf = false
      /\ Conf.address conf = Some (BackupRecord.address rec).
Proof.
  intros Hrec. unfold is_hub_address. rewrite Hrec.
  destruct (Conf.simulate conf); cbn [negb andb].
  - split; [discriminate|intros [H _]; discriminate H].
  - change (truthy rec) with true. cbn [andb].
    destruct (Conf.address conf) as [a|].
    + destruct (String.eqb_spec (BackupRecord.address rec) a) as [->|Hne].
      * split; auto.
      * split; [discriminate|]. intros [_ H]. inversion H. congruence.
    + split; [discriminate|intros [_ H]; discriminate H].
Qed.



(** * The claims *)

(** ** Hub negotiator *)

(** C1 (profile negotiation).  When the Hub's profile fetch raises a Hub
    error and the registry holds no profile, [get_profile] raises that same
    error and touches nothing, and a run that needs the profile ends with
    that error; when a profile is cached, [get_profile] returns the cached
    profile, leaves the registry as it was and emits exactly one warning.
    When the fetch succeeds with a non-empty result, the new profile
    replaces the cached one and is returned. *)
Theorem get_profile_negotiation (hb : Hub) (host : Host) (s : State) :
  let version := turnkey_version host in
  let cached := Registry.profile (registry s) in
  let since := option_map timestamp cached in
  (forall e,
      get_new_profile hb version since = Raise e -> is_hub_error e = true ->
      match cached with
      | None =>
          get_profile hb host s = (Raise e, s, [HubGetNewProfile version since])
          /\ forall conf opt_debug opt_resume opt_logfile,
              locked host = false -> truthy (Conf.profile conf) = false ->
              exists t,
                main hb host conf opt_debug opt_resume opt_logfile s
                = (Raise e, s, t)
      | Some p =>
          get_profile hb host s
          = (Ok (Some p), s,
             [HubGetNewProfile version since;
              Warn ("using cached profile because of a Hub error: " ++ str e)])
          /\ count is_warn (snd (get_profile hb host s)) = 1%nat
      end)
  /\ (forall p,
         get_new_profile hb version since = Ok (Some p) ->
         get_profile hb host s
         = (Ok (Some p),
            {| registry := Registry.set_profile (Some p) (registry s);
               trap := trap s |},
            [HubGetNewProfile version since; StoreProfile (Some p)])).
Proof.
  cbv zeta. split.
  - intros e Hraise Hhub.
    assert (Hget :
      get_profile hb host s
      = match Registry.profile (registry s) with
        | None =>
            (Raise e, s, [HubGetNewProfile (turnkey_version host) None])
        | Some p =>
            (Ok (Some p), s,
             [HubGetNewProfile (turnkey_version host) (Some (timestamp p));
              Warn ("using cached profile because of a Hub error: " ++ str e)])
        end).
    { open_state s. unfold get_profile, get_turnkey_version. unfold_cmd.
      destruct profile as [p|]; cbn in *; rewrite Hraise, Hhub; reflexivity. }
    destruct (Registry.profile (registry s)) as [p|].
    + rewrite Hget. split; reflexivity.
    + split; [exact Hget|].
      intros conf opt_debug opt_resume opt_logfile Hlock Hprofile.
      unfold main, prepare, hub_negotiator, negotiate_profile, acquire_lock,
        check_parallel_uploads.
      rewrite Hlock, Hprofile. cbn [negb]. repeat unfold_cmd.
      destruct ((1 <? Conf.s3_parallel_uploads conf)%Z
                && (Conf.volsize conf / 5 <? Conf.s3_parallel_uploads conf)%Z);
        cbv beta iota; rewrite Hget; eexists; reflexivity.
  - intros p Hok. open_state s.
    unfold get_profile, get_turnkey_version. unfold_cmd.
    destruct profile as [q|]; cbn in *; rewrite Hok; reflexivity.
Qed.

Lemma get_profile_negotiation_witness :
  get_profile Sample.hub_down Sample.host (Sample.start Sample.cached)
  = (Ok (Some Sample.stock_profile), Sample.start Sample.cached,
     [HubGetNewProfile "turnkey-core-12.0-squeeze-x86" (Some 1350000000%Z);
      Warn "using cached profile because of a Hub error: connection refused"])
  /\ count is_warn
           (snd (get_profile Sample.hub_down Sample.host
                             (Sample.start Sample.cached)))
     = 1%nat.
Proof.
  exact (proj1 (get_profile_negotiation Sample.hub_down Sample.host
                  (Sample.start Sample.cached))
               (HubError "connection refused") eq_refl eq_refl).
Defined.

(** C2 (credential negotiation).  With no manual address, when the Hub's
    credential request raises a Hub error: a "not subscribed" error is
    fatal whatever the registry caches (the error is printed and the run
    exits with status 1); any other Hub error costs one warning, and the
    run goes on to the backup record with the cached credentials, or with
    none when nothing is cached. *)
Theorem credential_negotiation (hb : Hub) (host : Host) (conf : Conf.t)
        (s : State) (e : exn) :
  truthy (Conf.address conf) = false ->
  get_credentials hb = Raise e ->
  is_hub_error e = true ->
  let cached := Registry.credentials (registry s) in
  (is_not_subscribed e = true ->
   negotiate hb host conf s
   = (Raise (SystemExit 1), s, [HubGetCredentials; Error (str e)]))
  /\ (is_not_subscribed e = false ->
      negotiate_credentials hb conf s
      = (Ok (Conf.set_credentials cached conf), s,
         [HubGetCredentials; Warn (str e)])
      /\ forall r s' t,
          negotiate_backup_record hb host (Conf.set_credentials cached conf) s
          = (r, s', t) ->
          negotiate hb host conf s
          = (r, s', [HubGetCredentials; Warn (str e)] ++ t)).
Proof.
  intros Haddr Hraise Hhub cached. subst cached.
  unfold negotiate, negotiate_credentials. rewrite Haddr. cbn [negb].
  unfold_cmd. rewrite Hraise, Hhub.
  split; intros Hsub; rewrite Hsub; cbn.
  - reflexivity.
  - destruct (Registry.credentials (registry s)) eqn:Hc; cbn; rewrite ?Hc;
      (split; [reflexivity|]); intros r s' t Hrec; rewrite Hrec; reflexivity.
Qed.

Lemma credential_negotiation_witness :
  negotiate_credentials Sample.hub_down Sample.conf (Sample.start Sample.cached)
  = (Ok (Conf.set_credentials (Some Sample.keys) Sample.conf),
     Sample.start Sample.cached,
     [HubGetCredentials; Warn "connection refused"]).
Proof.
  exact (proj1 (proj2 (credential_negotiation Sample.hub_down Sample.host
                         Sample.conf (Sample.start Sample.cached)
                         (HubError "connection refused")
                         eq_refl eq_refl eq_refl)
                      eq_refl)).
Defined.

(** C3 (backup record negotiation).  A cached backup record is revalidated
    by its id.  If the Hub answers with the invalid-backup error, the cache
    is discarded with a warning and a new record is created and stored; on
    any other Hub error the stale record is kept, with a warning.  When the
    registry holds no record, one is created from the registry key, the
    appliance version and the optional server id, and stored at once.  In
    each case the session's address becomes the address of the record the
    registry ends up with. *)
Theorem backup_record_negotiation (hb : Hub) (host : Host) (conf : Conf.t)
        (s : State) :
  let reg := registry s in
  let version := turnkey_version host in
  let server_id := lookup "serverid" (server_conf host) in
  let create := HubNewBackupRecord (Registry.key reg) version server_id in
  let created := new_backup_record hb (Registry.key reg) version server_id in
  let with_hbr h := {| registry := Registry.set_hbr h reg; trap := trap s |} in
  let to_address r := Conf.set_address (Some (BackupRecord.address r)) conf in
  (forall old,
      Registry.hbr reg = Some old ->
      let revalidate := HubGetBackupRecord (BackupRecord.backup_id old) in
      let revalidated := get_backup_record hb (BackupRecord.backup_id old) in
      (forall valid,
          revalidated = Ok valid ->
          negotiate_backup_record hb host conf s
          = (Ok (to_address valid), with_hbr (Some valid),
             [revalidate; StoreHbr (Some valid)]))
      /\ (forall e new,
             revalidated = Raise e -> is_invalid_backup e = true ->
             created = Ok new ->
             negotiate_backup_record hb host conf s
             = (Ok (to_address new), with_hbr (Some new),
                [revalidate;
                 Warn "old backup record deleted, creating new ... ";
                 StoreHbr None; create; StoreHbr (Some new)]))
      /\ (forall e,
             revalidated = Raise e -> is_hub_error e = true ->
             is_invalid_backup e = false ->
             negotiate_backup_record hb host conf s
             = (Ok (to_address old), s, [revalidate; Warn (str e)])))
  /\ (Registry.hbr reg = None ->
      forall new,
        created = Ok new ->
        negotiate_backup_record hb host conf s
        = (Ok (to_address new), with_hbr (Some new),
           [create; StoreHbr (Some new)])).
Proof.
  open_state s. cbv zeta. split.
  - intros old Hold. subst hbr.
    unfold negotiate_backup_record, get_turnkey_version, get_server_id.
    unfold_cmd. cbn. repeat split.
    + intros valid Hvalid. rewrite Hvalid. reflexivity.
    + intros e new Hraise Hinv Hnew. rewrite Hraise.
      destruct e; try discriminate Hinv. cbn. rewrite Hnew. reflexivity.
    + intros e Hraise Hhub Hinv. rewrite Hraise, Hhub, Hinv. reflexivity.
  - intros Hnone new Hnew. subst hbr.
    unfold negotiate_backup_record, get_turnkey_version, get_server_id.
    unfold_cmd. cbn. rewrite Hnew. reflexivity.
Qed.

Lemma backup_record_negotiation_witness :
  negotiate_backup_record Sample.hub_forgot Sample.host Sample.conf
                          (Sample.start Sample.cached)
  = (Ok (Conf.set_address (Some "s3://s3.amazonaws.com/tklbam-8") Sample.conf),
     Sample.start (Registry.set_hbr (Some Sample.new_record) Sample.cached),
     [HubGetBackupRecord "7";
      Warn "old backup record deleted, creating new ... ";
      StoreHbr None;
      HubNewBackupRecord "passphrase-key" "turnkey-core-12.0-squeeze-x86"
                         (Some "1-example");
      StoreHbr (Some Sample.new_record)]).
Proof.
  exact (proj1 (proj2 (proj1 (backup_record_negotiation Sample.hub_forgot
                                Sample.host Sample.conf
                                (Sample.start Sample.cached))
                             Sample.cached_record eq_refl))
               (InvalidBackupError "invalid backup id") Sample.new_record
               eq_refl eq_refl eq_refl).
Defined.

(** C4 (manual address).  In every run started with a manual target
    address (a value of [--address] that passes the truth test of line 234),
    no call to [get_credentials], [get_backup_record] or
    [new_backup_record] is made and no write to the registry's credentials
    or backup record happens; both entries end as they started, however the
    run ends. *)
Theorem manual_address_skips_negotiation
        (hb : Hub) (host : Host) (conf : Conf.t)
        (opt_debug opt_resume : bool) (opt_logfile : string)
        (s s' : State) (r : result unit) (t : list event) :
  truthy (Conf.address conf) = true ->
  main hb host conf opt_debug opt_resume opt_logfile s = (r, s', t) ->
  count negotiation_event t = 0%nat
  /\ Registry.credentials (registry s') = Registry.credentials (registry s)
  /\ Registry.hbr (registry s') = Registry.hbr (registry s).
Proof.
  intros Haddr Hrun.
  pose (I := fun reg =>
               Registry.credentials reg = Registry.credentials (registry s)
               /\ Registry.hbr reg = Registry.hbr (registry s)).
  assert (Hmain : triple I (fun ev => negb (negotiation_event ev))
                         (main hb host conf opt_debug opt_resume opt_logfile)).
  { apply triple_main_manual;
      solve [unchanged | by_cases_on_event | exact Haddr]. }
  destruct (Hmain _ _ _ _ Hrun) as [[Hc Hh] Ht]; [split; reflexivity|].
  split; [|split; assumption].
  apply forallb_count_zero. exact Ht.
Qed.

Lemma manual_address_skips_negotiation_witness :
  let '(_, s', t) :=
    main Sample.hub_up Sample.host Sample.manual false false
         "/var/log/tklbam-backup" (Sample.start Sample.cached) in
  count negotiation_event t = 0%nat
  /\ Registry.credentials (registry s') = Some Sample.keys
  /\ Registry.hbr (registry s') = Some Sample.cached_record.
Proof.
  exact (manual_address_skips_negotiation Sample.hub_up Sample.host
           Sample.manual false false "/var/log/tklbam-backup"
           (Sample.start Sample.cached) _ _ _ eq_refl eq_refl).
Defined.

(** ** Session resolver *)

(** C5 (explicit resume).  Take a run started with [--resume] that gets
    past the Hub negotiator.  If simulate mode is set, whatever the other
    options and the registry, the resolver prints the error and the run
    exits with status 1.  If simulate mode is off and the registry holds no
    resumable configuration, likewise.  Otherwise the working configuration
    is replaced by the stored one: the resolver returns the stored
    configuration, and the rest of the run (re-arming and supervisor) is
    that of the stored configuration alone. *)
Theorem explicit_resume_transition (hb : Hub) (host : Host) :
  let slot s := Registry.backup_resume_conf (registry s) in
  let exit := @Raise (Conf.t * bool) (SystemExit 1) in
  let incompatible := Error "--resume and --simulate incompatible" in
  let nothing := Error "no previous backup session to resume from" in
  let notice := Print "ATTEMPTING TO RESUME ABORTED SESSION" in
  (forall conf s,
      (Conf.simulate conf = true ->
       resolve_session conf true s = (exit, s, [incompatible]))
      /\ (Conf.simulate conf = false -> slot s = None ->
          resolve_session conf true s = (exit, s, [nothing]))
      /\ (forall stored,
             Conf.simulate conf = false -> slot s = Some stored ->
             resolve_session conf true s = (Ok (stored, true), s, [notice])))
  /\ (forall conf0 opt_debug opt_logfile s0 conf s t0,
         hub_negotiator hb host conf0 s0 = (Ok conf, s, t0) ->
         let run := main hb host conf0 opt_debug true opt_logfile s0 in
         (Conf.simulate conf0 = true ->
          run = (Raise (SystemExit 1), s, t0 ++ [incompatible]))
         /\ (Conf.simulate conf0 = false -> slot s0 = None ->
             run = (Raise (SystemExit 1), s, t0 ++ [nothing]))
         /\ (forall stored,
                Conf.simulate conf0 = false -> slot s0 = Some stored ->
                run
                = let '(r, s', t) :=
                    (rearm stored ;;
                     supervise hb host opt_debug true opt_logfile stored) s in
                  (r, s', t0 ++ notice :: t))).
Proof.
  cbv zeta.
  assert (Hstep : forall conf s,
             (Conf.simulate conf = true ->
              resolve_session conf true s
              = (Raise (SystemExit 1), s,
                 [Error "--resume and --simulate incompatible"]))
             /\ (Conf.simulate conf = false ->
                 Registry.backup_resume_conf (registry s) = None ->
                 resolve_session conf true s
                 = (Raise (SystemExit 1), s,
                    [Error "no previous backup session to resume from"]))
             /\ (forall stored,
                    Conf.simulate conf = false ->
                    Registry.backup_resume_conf (registry s) = Some stored ->
                    resolve_session conf true s
                    = (Ok (stored, true), s,
                       [Print "ATTEMPTING TO RESUME ABORTED SESSION"]))).
  { intros conf s. unfold resolve_session.
    repeat split; intros;
      repeat first
        [ progress unfold_cmd
        | progress cbv beta iota
        | match goal with
          | H : Conf.simulate conf = _ |- _ => rewrite H
          | H : Registry.backup_resume_conf (registry s) = _ |- _ => rewrite H
          end ];
      reflexivity. }
  split; [exact Hstep|].
  intros conf0 opt_debug opt_logfile s0 conf s t0 Hneg.
  assert (Hsim : Conf.simulate conf = Conf.simulate conf0).
  { eapply hub_negotiator_returns. exists s0, s, t0. exact Hneg. }
  assert (Hslot : Registry.backup_resume_conf (registry s)
                  = Registry.backup_resume_conf (registry s0)).
  { pose (I := fun reg => Registry.backup_resume_conf reg
                          = Registry.backup_resume_conf (registry s0)).
    assert (H : triple I (fun ev => negb (is_store_resume ev))
                       (hub_negotiator hb host conf0)).
    { apply triple_hub_negotiator; solve [unchanged | by_cases_on_event]. }
    destruct (H _ _ _ _ Hneg) as [HI _]; [reflexivity|exact HI]. }
  erewrite main_after_negotiation by exact Hneg.
  destruct (Hstep conf s) as (Hinc & Hnone & Hsome).
  rewrite Hsim, Hslot in *.
  repeat split; intros; unfold bind at 1.
  - rewrite Hinc by assumption. reflexivity.
  - rewrite Hnone by assumption. reflexivity.
  - rewrite (Hsome stored) by assumption. cbv beta iota.
    destruct ((rearm stored ;;
               supervise hb host opt_debug true opt_logfile stored)%cmd s)
      as [[r s2] t2].
    reflexivity.
Qed.

Lemma explicit_resume_transition_witness :
  main Sample.hub_up Sample.host (Sample.with_simulate Sample.conf)
       false true "/var/log/tklbam-backup" (Sample.start Sample.cached)
  = (Raise (SystemExit 1), Sample.start Sample.cached,
     [LockAcquired; HubBackups "APIKEY";
      HubGetNewProfile "turnkey-core-12.0-squeeze-x86" (Some 1350000000%Z);
      StoreProfile (Some Sample.stock_profile);
      HubGetCredentials; StoreCredentials (Some Sample.keys);
      HubGetBackupRecord "7"; StoreHbr (Some Sample.cached_record);
      Error "--resume and --simulate incompatible"]).
Proof.
  exact (proj1 (proj2 (explicit_resume_transition Sample.hub_up Sample.host)
                      (Sample.with_simulate Sample.conf) false
                      "/var/log/tklbam-backup" (Sample.start Sample.cached)
                      _ _ _ eq_refl)
               eq_refl).
Defined.

(** C6 (re-arming).  When the session is resolved, by explicit resume, by
    implicit resume or as a fresh session, the last two things done before
    the supervisor starts are to clear the registry's resumable
    configuration and, if and only if simulate mode is off, to set it to
    the current configuration.  So at that point the slot equals the
    current configuration in a non-simulated run and is empty in a
    simulated one; nothing of the supervisor has happened yet, and the
    supervisor starts from exactly this state. *)
Theorem rearm_invariant
        (hb : Hub) (host : Host) (conf0 : Conf.t) (opt_resume0 : bool)
        (s0 s : State) (conf : Conf.t) (opt_resume : bool) (t : list event) :
  prepare hb host conf0 opt_resume0 s0 = (Ok (conf, opt_resume), s, t) ->
  let armed :=
    if Conf.simulate conf then [] else [StoreBackupResumeConf (Some conf)] in
  Registry.backup_resume_conf (registry s)
  = (if Conf.simulate conf then None else Some conf)
  /\ (exists t0,
         t = t0 ++ StoreBackupResumeConf None :: armed
         /\ count is_store_resume t0 = 0%nat)
  /\ count supervisor_event t = 0%nat
  /\ forall opt_debug opt_logfile,
      main hb host conf0 opt_debug opt_resume0 opt_logfile s0
      = let '(r, s', t') :=
          supervise hb host opt_debug opt_resume opt_logfile conf s in
        (r, s', t ++ t').
Proof.
  intros Hprep. cbv zeta.
  assert (Hquiet : count supervisor_event t = 0%nat).
  { apply forallb_count_zero.
    assert (H : triple (fun _ => True) (fun ev => negb (supervisor_event ev))
                       (prepare hb host conf0 opt_resume0)).
    { apply triple_prepare; solve [unchanged | by_cases_on_event]. }
    destruct (H _ _ _ _ Hprep) as [_ Ht]; [exact Logic.I|exact Ht]. }
  assert (Hmain : forall opt_debug opt_logfile,
             main hb host conf0 opt_debug opt_resume0 opt_logfile s0
             = let '(r, s', t') :=
                 supervise hb host opt_debug opt_resume opt_logfile conf s in
               (r, s', t ++ t')).
  { intros opt_debug opt_logfile. unfold main, bind. rewrite Hprep.
    reflexivity. }
  unfold prepare in Hprep.
  apply bind_inv in Hprep.
  destruct Hprep as [(e & _ & He)|(c1 & s1 & t1 & t' & Hneg & Hprep & ->)];
    [discriminate He|].
  apply bind_inv in Hprep.
  destruct Hprep as [(e & _ & He)|([c2 rs2] & s2 & t2 & t'' & Hres & Hprep & ->)];
    [discriminate He|].
  unfold bind in Hprep. rewrite rearm_run in Hprep. unfold ret in Hprep.
  inversion Hprep; subst; clear Hprep.
  split; [|split; [|split; assumption]].
  - cbn. reflexivity.
  - exists (t1 ++ t2). split.
    + rewrite app_nil_r, app_assoc. reflexivity.
    + rewrite count_app.
      assert (H1 : triple (fun _ => True) (fun ev => negb (is_store_resume ev))
                          (hub_negotiator hb host conf0)).
      { apply triple_hub_negotiator; solve [unchanged | by_cases_on_event]. }
      assert (H2 : triple (fun _ => True) (fun ev => negb (is_store_resume ev))
                          (resolve_session c1 opt_resume0)).
      { apply triple_resolve_session; solve [unchanged | by_cases_on_event]. }
      destruct (H1 _ _ _ _ Hneg) as [_ Ht1]; [exact Logic.I|].
      destruct (H2 _ _ _ _ Hres) as [_ Ht2]; [exact Logic.I|].
      rewrite (forallb_count_zero _ _ Ht1), (forallb_count_zero _ _ Ht2).
      reflexivity.
Qed.

Lemma rearm_invariant_witness :
  let '(_, s, _) :=
    prepare Sample.hub_up Sample.host Sample.conf false
            (Sample.start Sample.cached) in
  Registry.backup_resume_conf (registry s)
  = Some (Conf.set_address (Some "s3://s3.amazonaws.com/tklbam-7")
            (Conf.set_credentials (Some Sample.keys)
               (Conf.set_profile (Some (ProfileObj Sample.stock_profile))
                  Sample.conf))).
Proof.
  exact (proj1 (rearm_invariant Sample.hub_up Sample.host Sample.conf false
                  (Sample.start Sample.cached) _ _ _ _ eq_refl)).
Defined.

(** ** Run/cleanup supervisor *)

(** C10 (manual address, no backup record).  In every run started with a
    manual target address while the registry holds no backup record, the
    run does not end normally and the engine is never constructed: the
    negotiation that would store a record is skipped, so if the run gets as
    far as line 296 the read of [registry.hbr.backup_id] raises
    [AttributeError], which nothing handles. *)
Theorem manual_address_without_record_aborts
        (hb : Hub) (host : Host) (conf : Conf.t)
        (opt_debug opt_resume : bool) (opt_logfile : string)
        (s s' : State) (r : result unit) (t : list event) :
  truthy (Conf.address conf) = true ->
  Registry.hbr (registry s) = None ->
  main hb host conf opt_debug opt_resume opt_logfile s = (r, s', t) ->
  (exists e, r = Raise e)
  /\ count is_engine_new t = 0%nat
  /\ forall c rs s1 t1,
      prepare hb host conf opt_resume s = (Ok (c, rs), s1, t1) ->
      r = Raise (AttributeError "'NoneType' object has no attribute 'backup_id'")
      /\ s' = s1 /\ t = t1.
Proof.
  intros Haddr Hnone Hrun.
  assert (Hprep : triple (fun reg => Registry.hbr reg = None)
                         (fun ev => negb (is_engine_new ev))
                         (prepare hb host conf opt_resume)).
  { apply triple_prepare_manual;
      solve [unchanged | by_cases_on_event | exact Haddr]. }
  unfold main in Hrun. apply bind_inv in Hrun.
  destruct Hrun as [(e & Hp & ->)|([c rs] & s1 & t1 & t2 & Hp & Hsup & ->)].
  - destruct (Hprep _ _ _ _ Hp Hnone) as [_ Ht].
    split; [exists e; reflexivity|].
    split; [apply forallb_count_zero; exact Ht|].
    intros c rs s1 t1 Hok. rewrite Hok in Hp. discriminate Hp.
  - destruct (Hprep _ _ _ _ Hp Hnone) as [Hnone1 Ht].
    rewrite supervise_without_record in Hsup by exact Hnone1.
    inversion Hsup; subst; clear Hsup.
    split; [eexists; reflexivity|].
    split; [rewrite app_nil_r; apply forallb_count_zero; exact Ht|].
    intros c' rs' s1' t1' Hok. rewrite Hok in Hp. inversion Hp; subst.
    rewrite app_nil_r. auto.
Qed.

Lemma manual_address_without_record_aborts_witness :
  let '(r, _, t) :=
    main Sample.hub_up Sample.host Sample.manual false false
         "/var/log/tklbam-backup" (Sample.start Sample.empty) in
  r = Raise (AttributeError "'NoneType' object has no attribute 'backup_id'")
  /\ count is_engine_new t = 0%nat.
Proof.
  pose proof (manual_address_without_record_aborts Sample.hub_up Sample.host
                Sample.manual false false "/var/log/tklbam-backup"
                (Sample.start Sample.empty) _ _ _ eq_refl eq_refl eq_refl)
    as (_ & Hnew & Hraise).
  split; [exact (proj1 (Hraise _ _ _ _ eq_refl))|exact Hnew].
Defined.

(** C7, as stated, fails: a simulated run whose address comes from the Hub
    runs the engine and notifies the Hub of nothing. *)
Lemma inprogress_skipped_when_simulating :
  truthy (Conf.address (Sample.with_simulate Sample.conf)) = false
  /\ let '(r, _, t) :=
       main Sample.hub_up Sample.host (Sample.with_simulate Sample.conf)
            false false "/var/log/tklbam-backup"
            (Sample.start Sample.cached) in
     r = Ok tt /\ timeline t = [EngineRun false].
Proof. vm_compute. repeat split. Qed.

(** When the pre hook fails, the stop notification is sent although the
    start notification never was. *)
Example stop_without_start_when_pre_hook_fails :
  let '(r, _, t) :=
    main Sample.hub_up Sample.host_hook_failing Sample.conf
         false false "/var/log/tklbam-backup" (Sample.start Sample.cached) in
  r = Raise (Exception "hook failed")
  /\ timeline t = [HubSetBackupInprogress "7" false].
Proof. vm_compute. repeat split. Qed.

(** With [--resume] the stored configuration replaces the negotiated one:
    when it names another address than the record the Hub has just
    confirmed, the engine runs and the Hub is notified of nothing. *)
Example resumed_session_with_another_address :
  truthy (Conf.address Sample.conf) = false
  /\ let '(r, _, t) :=
       main Sample.hub_up Sample.host Sample.conf
            false true "/var/log/tklbam-backup" (Sample.start Sample.interrupted) in
     r = Ok tt /\ timeline t = [EngineRun false].
Proof. vm_compute. repeat split. Qed.

(** C7, amended (in-progress notification).  Take a run that gets past
    line 293.

    - If it is not simulated, has no manually supplied address and no
      [--resume], the registry holds a backup record whose address is the
      working configuration's, and the run is announced to the Hub for that
      record's backup id: the guaranteed block sends the stop notification
      exactly once and last, on every exit path, including when the engine
      raises; the start notification is sent exactly when the pre hook
      returns (so the stop is sent without a start when the pre hook
      raises); and whenever the pre hook and the start notification return,
      the Hub is told the backup is in progress before the engine runs.
    - Whatever the command line, a run with a record in the registry is
      announced in this way when it is not simulated and the working
      configuration's address is the record's, and otherwise sends no
      in-progress notification at all.
    - A simulated run sends none. *)
Theorem inprogress_mirroring
        (hb : Hub) (host : Host) (conf0 : Conf.t)
        (opt_debug opt_resume0 : bool) (opt_logfile : string) (s0 : State)
        (conf : Conf.t) (opt_resume : bool) (s : State) (t0 : list event)
        (r : result unit) (s' : State) (t : list event) :
  prepare hb host conf0 opt_resume0 s0 = (Ok (conf, opt_resume), s, t0) ->
  main hb host conf0 opt_debug opt_resume0 opt_logfile s0 = (r, s', t) ->
  let announced rec :=
    let id := BackupRecord.backup_id rec in
    let start := HubSetBackupInprogress id true in
    let stop := HubSetBackupInprogress id false in
    (exists before, timeline t = before ++ [stop] /\ ~ In stop before)
    /\ (In start (timeline t) <-> hooks_backup_pre host = Ok tt)
    /\ (hooks_backup_pre host = Ok tt ->
        set_backup_inprogress hb id true = Ok tt ->
        timeline t = [start; EngineRun opt_debug; stop]) in
  (truthy (Conf.address conf0) = false ->
   Conf.simulate conf0 = false ->
   opt_resume0 = false ->
   exists rec,
     Registry.hbr (registry s) = Some rec
     /\ Conf.address conf = Some (BackupRecord.address rec)
     /\ announced rec)
  /\ (forall rec,
         Registry.hbr (registry s) = Some rec ->
         (Conf.simulate conf = false ->
          Conf.address conf = Some (BackupRecord.address rec) ->
          announced rec)
         /\ (Conf.simulate conf = true
             \/ Conf.address conf <> Some (BackupRecord.address rec) ->
             count is_inprogress t = 0%nat))
  /\ (Conf.simulate conf0 = true -> count is_inprogress t = 0%nat).
Proof.
  intros Hprep Hmain. cbv zeta.
  assert (Hgen : forall rec,
             Registry.hbr (registry s) = Some rec ->
             timeline t
             = match hooks_backup_pre host with
               | Ok _ =>
                   if is_hub_address conf (registry s)
                   then HubSetBackupInprogress (BackupRecord.backup_id rec) true
                          :: match set_backup_inprogress
                                     hb (BackupRecord.backup_id rec) true with
                             | Ok _ => [EngineRun opt_debug]
                             | Raise _ => []
                             end
                   else [EngineRun opt_debug]
               | Raise _ => []
               end
               ++ (if is_hub_address conf (registry s)
                   then [HubSetBackupInprogress (BackupRecord.backup_id rec)
                                                false]
                   else [])).
  { intros rec Hrec.
    destruct (main_timeline _ _ _ _ _ _ _ _ _ _ _ _ _ _ _ Hprep Hrec Hmain)
      as (rt & s1 & t1 & Hrun & Ht).
    apply run_trapped_timeline in Hrun. rewrite Ht. exact Hrun. }
  assert (Hann : forall rec,
             Registry.hbr (registry s) = Some rec ->
             Conf.simulate conf = false ->
             Conf.address conf = Some (BackupRecord.address rec) ->
             (exists before,
                 timeline t
                 = before ++ [HubSetBackupInprogress
                                (BackupRecord.backup_id rec) false]
                 /\ ~ In (HubSetBackupInprogress
                            (BackupRecord.backup_id rec) false) before)
             /\ (In (HubSetBackupInprogress (BackupRecord.backup_id rec) true)
                    (timeline t)
                 <-> hooks_backup_pre host = Ok tt)
             /\ (hooks_backup_pre host = Ok tt ->
                 set_backup_inprogress hb (BackupRecord.backup_id rec) true
                 = Ok tt ->
                 timeline t
                 = [HubSetBackupInprogress (BackupRecord.backup_id rec) true;
                    EngineRun opt_debug;
                    HubSetBackupInprogress (BackupRecord.backup_id rec) false])).
  { intros rec Hrec Hsim Haddr.
    pose proof (Hgen rec Hrec) as Htl.
    assert (Hhub : is_hub_address conf (registry s) = true)
      by (apply (is_hub_address_true conf (registry s) rec Hrec); auto).
    rewrite Hhub in Htl. rewrite Htl. clear Htl.
    destruct (hooks_backup_pre host) as [[]|e0];
      [destruct (set_backup_inprogress hb (BackupRecord.backup_id rec) true)
        as [[]|e1]|].
    - split; [|split].
      + eexists. split; [reflexivity|]. cbn. intuition discriminate.
      + split; [reflexivity|]. intros _. left. reflexivity.
      + reflexivity.
    - split; [|split].
      + eexists. split; [reflexivity|]. cbn. intuition discriminate.
      + split; [reflexivity|]. intros _. left. reflexivity.
      + intros _ H. discriminate H.
    - split; [|split].
      + exists []. split; [reflexivity|]. intros [].
      + split; [|discriminate]. cbn. intuition discriminate.
      + discriminate. }
  assert (Hnone : forall rec,
             Registry.hbr (registry s) = Some rec ->
             Conf.simulate conf = true
             \/ Conf.address conf <> Some (BackupRecord.address rec) ->
             count is_inprogress t = 0%nat).
  { intros rec Hrec Hnot.
    assert (Hhub : is_hub_address conf (registry s) = false).
    { destruct (is_hub_address conf (registry s)) eqn:E; [|reflexivity].
      apply (is_hub_address_true conf (registry s) rec Hrec) in E.
      destruct E as [E1 E2]. destruct Hnot as [H|H]; congruence. }
    rewrite <- (count_timeline is_inprogress t) by by_cases_on_event.
    rewrite (Hgen rec Hrec), Hhub.
    destruct (hooks_backup_pre host); reflexivity. }
  split; [|split].
  - intros Haddr Hsim ->.
    destruct (prepare_hub_managed _ _ _ _ _ _ _ _ Haddr Hsim Hprep)
      as (rec & Hrec & Hs & Ha).
    exists rec. split; [exact Hrec|]. split; [exact Ha|].
    apply Hann; assumption.
  - intros rec Hrec. split; [apply Hann|apply Hnone]; exact Hrec.
  - intros Hsim.
    assert (Hconf : Conf.simulate conf = true).
    { destruct (prepare_inv _ _ _ _ _ _ _ _ _ Hprep)
        as (c1 & s1 & t1 & t2 & Hneg & Hres & _).
      assert (H1 : Conf.simulate c1 = true).
      { rewrite <- Hsim. apply (hub_negotiator_returns hb host).
        exists s0, s1, t1. exact Hneg. }
      destruct opt_resume0.
      + exfalso. revert Hres. unfold resolve_session. rewrite H1.
        repeat unfold_cmd. cbv beta iota. discriminate.
      + apply resolve_session_implicit in Hres. congruence. }
    destruct (Registry.hbr (registry s)) as [rec|] eqn:Hrec.
    + apply (Hnone rec); [reflexivity|left; exact Hconf].
    + erewrite main_after_prepare in Hmain by exact Hprep.
      rewrite supervise_without_record in Hmain by exact Hrec.
      inversion Hmain; subst; clear Hmain.
      rewrite app_nil_r.
      apply (count_weaken _ supervisor_event);
        [by_cases_on_event|exact (prepare_quiet _ _ _ _ _ _ _ _ Hprep)].
Qed.

Lemma inprogress_mirroring_witness :
  let '(r, _, t) :=
    main Sample.hub_up Sample.host_failing Sample.conf false false
         "/var/log/tklbam-backup" (Sample.start Sample.cached) in
  timeline t
  = [HubSetBackupInprogress "7" true; EngineRun false;
     HubSetBackupInprogress "7" false].
Proof.
  pose proof (inprogress_mirroring Sample.hub_up Sample.host_failing
                Sample.conf false false "/var/log/tklbam-backup"
                (Sample.start Sample.cached) _ _ _ _ _ _ _
                eq_refl eq_refl) as (_ & Hrec & _).
  destruct (Hrec Sample.cached_record eq_refl) as [Hann _].
  exact (proj2 (proj2 (Hann eq_refl eq_refl)) eq_refl eq_refl).
Defined.




(** C9 (success path).  When the trapped run completes without raising: in
    simulate mode the engine's cleanup is never invoked, the operator
    message is printed and the Hub is not told of an updated backup; in
    non-simulate mode the engine's cleanup runs once and the Hub's
    [updated_backup] is called, once, with the session's address.  In both
    modes the registry's resumable configuration is left empty. *)
Theorem success_path
        (hb : Hub) (host : Host) (conf0 : Conf.t)
        (opt_debug opt_resume0 : bool) (opt_logfile : string) (s0 : State)
        (conf : Conf.t) (opt_resume : bool) (s : State) (t0 : list event)
        (rec : BackupRecord.t) (s1 : State) (t1 : list event) :
  prepare hb host conf0 opt_resume0 s0 = (Ok (conf, opt_resume), s, t0) ->
  Registry.hbr (registry s) = Some rec ->
  run_trapped hb host opt_debug opt_resume opt_logfile conf
              (is_hub_address conf (registry s)) (BackupRecord.backup_id rec) s
  = (Ok tt, s1, t1) ->
  let run := main hb host conf0 opt_debug opt_resume0 opt_logfile s0 in
  let final := with_backup_resume_conf None s1 in
  let upto := t0 ++ EngineNew conf opt_resume :: t1 in
  let message :=
    Print "Completed --simulate: Leaving /TKLBAM intact so you can manually inspect it" in
  let updated := HubUpdatedBackup (Conf.address conf) in
  (Conf.simulate conf = true ->
   run = (Ok tt, final, upto ++ [message; StoreBackupResumeConf None])
   /\ count is_engine_cleanup (snd run) = 0%nat
   /\ count is_updated_backup (snd run) = 0%nat)
  /\ (Conf.simulate conf = false ->
      run = (updated_backup hb (Conf.address conf), final,
             upto ++ [EngineCleanup; StoreBackupResumeConf None; updated])
      /\ count is_engine_cleanup (snd run) = 1%nat
      /\ count is_updated_backup (snd run) = 1%nat)
  /\ Registry.backup_resume_conf (registry final) = None.
Proof.
  intros Hprep Hrec Hrun. cbv zeta.
  erewrite main_after_prepare by exact Hprep.
  erewrite supervise_run; [|exact Hrec|exact Hrun].
  pose proof (prepare_quiet _ _ _ _ _ _ _ _ Hprep) as Hq0.
  pose proof (run_trapped_no_completion _ _ _ _ _ _ _ _ _ _ _ _ Hrun) as Hq1.
  assert (Hc : forall K, accepts completion_event K ->
                 count K (t0 ++ EngineNew conf opt_resume :: t1)
                 = count K [EngineNew conf opt_resume]).
  { intros K HK.
    change (EngineNew conf opt_resume :: t1)
      with ([EngineNew conf opt_resume] ++ t1).
    rewrite !count_app.
    rewrite (count_weaken K supervisor_event t0);
      [|intros ev Hev; unfold supervisor_event; rewrite (HK ev Hev);
        apply orb_true_r|exact Hq0].
    rewrite (count_weaken K completion_event t1); [|exact HK|exact Hq1].
    rewrite Nat.add_0_r. reflexivity. }
  split; [|split; [|reflexivity]]; intros Hsim; rewrite Hsim;
    cbv beta iota; cbn [snd];
    match goal with
    | |- context [t0 ++ EngineNew conf opt_resume :: t1 ++ ?x] =>
        change (EngineNew conf opt_resume :: t1 ++ x)
          with ((EngineNew conf opt_resume :: t1) ++ x);
        rewrite (app_assoc t0 (EngineNew conf opt_resume :: t1) x)
    end;
    (split; [reflexivity|]);
    split; rewrite count_app, Hc by by_cases_on_event; reflexivity.
Qed.

Lemma success_path_witness :
  let '(r, s, t) :=
    main Sample.hub_up Sample.host Sample.conf false false
         "/var/log/tklbam-backup" (Sample.start Sample.cached) in
  r = Ok tt
  /\ Registry.backup_resume_conf (registry s) = None
  /\ count is_engine_cleanup t = 1%nat
  /\ count is_updated_backup t = 1%nat.
Proof.
  pose proof (success_path Sample.hub_up Sample.host Sample.conf false false
                "/var/log/tklbam-backup" (Sample.start Sample.cached)
                _ _ _ _ _ _ _ eq_refl eq_refl eq_refl) as (_ & Hrun & Hslot).
  destruct (Hrun eq_refl) as (Heq & Hclean & Hupd).
  exact (conj (f_equal (fun x => fst (fst x)) Heq)
              (conj Hslot (conj Hclean Hupd))).
Defined.

(** * Further properties *)

(** ** The lock, the checks and the negotiation *)

(** X1.  Lock contention: if the pid lock is held, main prints 'error: a
    previous backup is still in progress', exits with status 1 and does
    nothing else: the registry is unchanged and no Hub call, hook or engine
    event happens. *)
Theorem lock_contention_stops_everything
        (hb : Hub) (host : Host) (conf : Conf.t)
        (opt_debug opt_resume : bool) (opt_logfile : string) (s : State) :
  locked host = true ->
  main hb host conf opt_debug opt_resume opt_logfile s
  = (Raise (SystemExit 1), s,
     [Error "a previous backup is still in progress"]).
Proof.
  intros Hlock.
  unfold main, prepare, hub_negotiator, acquire_lock. rewrite Hlock.
  repeat unfold_cmd. reflexivity.
Qed.

Lemma lock_contention_stops_everything_witness :
  main Sample.hub_up Sample.host_locked Sample.conf false false
       "/var/log/tklbam-backup" (Sample.start Sample.cached)
  = (Raise (SystemExit 1), Sample.start Sample.cached,
     [Error "a previous backup is still in progress"]).
Proof.
  exact (lock_contention_stops_everything Sample.hub_up Sample.host_locked
           Sample.conf false false "/var/log/tklbam-backup"
           (Sample.start Sample.cached) eq_refl).
Defined.

(** X2.  The s3-parallel-uploads check of lines 226-227, in terms of
    multiplication instead of Python's floor division: the warning is
    printed exactly when s3_parallel_uploads > 1 and volsize < 5 *
    s3_parallel_uploads, and the check never changes the state or fails. *)
Theorem parallel_uploads_warning (conf : Conf.t) (s : State) :
  let n := Conf.s3_parallel_uploads conf in
  let msg := "s3-parallel-uploads > volsize / 5 (minimum upload chunk is 5MB)" in
  (1 < n /\ Conf.volsize conf < 5 * n ->
   check_parallel_uploads conf s = (Ok tt, s, [Warn msg]))%Z
  /\ (n <= 1 \/ 5 * n <= Conf.volsize conf ->
      check_parallel_uploads conf s = (Ok tt, s, []))%Z.
Proof.
  cbv zeta. unfold check_parallel_uploads, when, warn, emit, ret.
  split.
  - intros [H1 H2].
    assert (Hdiv : (Conf.volsize conf / 5 < Conf.s3_parallel_uploads conf)%Z)
      by (apply Z.div_lt_upper_bound; lia).
    apply Z.ltb_lt in H1, Hdiv. rewrite H1, Hdiv. reflexivity.
  - intros H.
    destruct (1 <? Conf.s3_parallel_uploads conf)%Z eqn:H1; [|reflexivity].
    apply Z.ltb_lt in H1.
    assert (Hdiv : (Conf.s3_parallel_uploads conf <= Conf.volsize conf / 5)%Z)
      by (apply Z.div_le_lower_bound; lia).
    apply Z.ltb_ge in Hdiv. rewrite Hdiv. reflexivity.
Qed.

Lemma parallel_uploads_warning_witness :
  check_parallel_uploads
    (Assign.s3_parallel_uploads 11 Sample.conf) (Sample.start Sample.cached)
  = (Ok tt, Sample.start Sample.cached,
     [Warn "s3-parallel-uploads > volsize / 5 (minimum upload chunk is 5MB)"]).
Proof.
  apply (proj1 (parallel_uploads_warning
                  (Assign.s3_parallel_uploads 11 Sample.conf)
                  (Sample.start Sample.cached))).
  cbn. lia.
Defined.

(** [get_profile], outcome by outcome of the Hub's answer. *)
Lemma get_profile_run (hb : Hub) (host : Host) (s : State) :
  let cached := Registry.profile (registry s) in
  let ask := HubGetNewProfile (turnkey_version host)
                              (option_map timestamp cached) in
  get_profile hb host s
  = match get_new_profile hb (turnkey_version host)
                          (option_map timestamp cached) with
    | Ok (Some p) =>
        (Ok (Some p),
         {| registry := Registry.set_profile (Some p) (registry s);
            trap := trap s |},
         [ask; StoreProfile (Some p)])
    | Ok None => (Ok cached, s, [ask])
    | Raise e =>
        if is_hub_error e
        then match cached with
             | Some p =>
                 (Ok cached, s,
                  [ask;
                   Warn ("using cached profile because of a Hub error: "
                           ++ str e)])
             | None => (Raise e, s, [ask])
             end
        else (Raise e, s, [ask])
    end.
Proof.
  open_state s. cbv zeta.
  unfold get_profile, get_turnkey_version. repeat unfold_cmd.
  destruct profile as [q|]; cbn [truthy truthy_option truthy_Profile option_map];
    cbv beta iota;
    (destruct (get_new_profile hb (turnkey_version host) _) as [[p|]|e];
     [reflexivity|reflexivity|]);
    destruct (is_hub_error e); reflexivity.
Qed.

(** X3.  get_profile: when the Hub answers that there is no newer profile
    (a falsy result), the cached profile (possibly None) is returned, the
    registry is not written and nothing is printed. *)
Theorem get_profile_nothing_newer (hb : Hub) (host : Host) (s : State) :
  let cached := Registry.profile (registry s) in
  let since := option_map timestamp cached in
  get_new_profile hb (turnkey_version host) since = Ok None ->
  get_profile hb host s
  = (Ok cached, s, [HubGetNewProfile (turnkey_version host) since]).
Proof.
  cbv zeta. intros H. rewrite get_profile_run. cbv zeta. rewrite H. reflexivity.
Qed.

Lemma get_profile_nothing_newer_witness :
  get_profile Sample.hub_forgot Sample.host (Sample.start Sample.cached)
  = (Ok (Some Sample.stock_profile), Sample.start Sample.cached,
     [HubGetNewProfile "turnkey-core-12.0-squeeze-x86" (Some 1350000000%Z)]).
Proof.
  exact (get_profile_nothing_newer Sample.hub_forgot Sample.host
           (Sample.start Sample.cached) eq_refl).
Defined.

(** X4.  get_profile: an exception of the Hub call that is not a Hub error
    is not caught, even when a profile is cached: it propagates unchanged,
    with no warning and the registry untouched. *)
Theorem get_profile_other_error_propagates
        (hb : Hub) (host : Host) (s : State) (e : exn) :
  let since := option_map timestamp (Registry.profile (registry s)) in
  get_new_profile hb (turnkey_version host) since = Raise e ->
  is_hub_error e = false ->
  get_profile hb host s
  = (Raise e, s, [HubGetNewProfile (turnkey_version host) since])
  /\ count is_warn (snd (get_profile hb host s)) = 0%nat.
Proof.
  cbv zeta. intros H He. rewrite get_profile_run. cbv zeta. rewrite H, He.
  split; reflexivity.
Qed.

Lemma get_profile_other_error_propagates_witness :
  get_profile Sample.hub_broken Sample.host (Sample.start Sample.cached)
  = (Raise (Exception "broken pipe"), Sample.start Sample.cached,
     [HubGetNewProfile "turnkey-core-12.0-squeeze-x86" (Some 1350000000%Z)]).
Proof.
  exact (proj1 (get_profile_other_error_propagates Sample.hub_broken
                  Sample.host (Sample.start Sample.cached) _
                  eq_refl eq_refl)).
Defined.

(** X5.  get_profile: whenever it returns, the value returned is the
    profile the registry holds afterwards; whenever it raises, the registry
    is unchanged, and a Hub error is raised only if no profile is cached;
    the Hub is asked exactly once; credentials, backup record and resumable
    slot are never touched. *)
Theorem get_profile_returns_registry_profile
        (hb : Hub) (host : Host) (s s' : State) (r : result (option Profile))
        (t : list event) :
  get_profile hb host s = (r, s', t) ->
  (forall p, r = Ok p -> p = Registry.profile (registry s'))
  /\ (forall e, r = Raise e ->
        s' = s /\ (is_hub_error e = true -> Registry.profile (registry s) = None))
  /\ count (fun ev => match ev with HubGetNewProfile _ _ => true | _ => false end) t
     = 1%nat
  /\ Registry.credentials (registry s') = Registry.credentials (registry s)
  /\ Registry.hbr (registry s') = Registry.hbr (registry s)
  /\ Registry.backup_resume_conf (registry s')
     = Registry.backup_resume_conf (registry s).
Proof.
  rewrite get_profile_run. cbv zeta.
  destruct (get_new_profile hb (turnkey_version host) _) as [[p|]|e];
    [| |destruct (is_hub_error e) eqn:Hhub;
        [destruct (Registry.profile (registry s)) as [q|] eqn:Hq|]];
    intros H; inversion H; subst; clear H; repeat split;
    try congruence;
    try (intros ? Hx; inversion Hx; subst; first [reflexivity | congruence]).
Qed.

Lemma get_profile_returns_registry_profile_witness :
  let '(r, s', _) :=
    get_profile Sample.hub_up Sample.host (Sample.start Sample.empty) in
  r = Ok (Registry.profile (registry s')).
Proof.
  pose proof (get_profile_returns_registry_profile Sample.hub_up Sample.host
                (Sample.start Sample.empty) _ _ _ eq_refl) as (H & _).
  exact (f_equal (fun p => Ok p) (H _ eq_refl)).
Defined.

(** X6.  Credential step: whenever it completes, conf.credentials equals
    registry.credentials at that point and nothing else of the configuration
    has changed; if the Hub answered, the registry holds the Hub's
    credentials; the registry's profile, backup record and resumable slot
    are unchanged. *)
Theorem credentials_stay_in_step
        (hb : Hub) (conf c : Conf.t) (s s' : State) (t : list event) :
  negotiate_credentials hb conf s = (Ok c, s', t) ->
  Conf.credentials c = Registry.credentials (registry s')
  /\ c = Conf.set_credentials (Conf.credentials c) conf
  /\ (forall fresh, get_credentials hb = Ok fresh ->
        Registry.credentials (registry s') = Some fresh)
  /\ Registry.profile (registry s') = Registry.profile (registry s)
  /\ Registry.hbr (registry s') = Registry.hbr (registry s)
  /\ Registry.backup_resume_conf (registry s')
     = Registry.backup_resume_conf (registry s).
Proof.
  rewrite negotiate_credentials_run.
  destruct (get_credentials hb) as [k|e];
    [|destruct (is_hub_error e); [destruct (is_not_subscribed e)|]];
    intros H; inversion H; subst; clear H;
    repeat split; try reflexivity; try discriminate.
  intros fresh Hf. inversion Hf. reflexivity.
Qed.

Lemma credentials_stay_in_step_witness :
  let '(_, s', _) :=
    negotiate_credentials Sample.hub_up Sample.conf
                          (Sample.start Sample.empty) in
  Registry.credentials (registry s') = Some Sample.keys.
Proof.
  pose proof (credentials_stay_in_step Sample.hub_up Sample.conf _
                (Sample.start Sample.empty) _ _ eq_refl)
    as (_ & _ & H & _).
  exact (H _ eq_refl).
Defined.

(** X7.  Credential step: an exception of get_credentials that is not a Hub
    error is not handled; with no manual address the negotiation ends with
    that exception right after the call, with no warning and the registry
    unchanged. *)
Theorem credentials_other_error_propagates
        (hb : Hub) (host : Host) (conf : Conf.t) (s : State) (e : exn) :
  truthy (Conf.address conf) = false ->
  get_credentials hb = Raise e ->
  is_hub_error e = false ->
  negotiate hb host conf s = (Raise e, s, [HubGetCredentials]).
Proof.
  intros Haddr Hraise Hhub. unfold negotiate. rewrite Haddr. cbn [negb].
  unfold bind. rewrite negotiate_credentials_run, Hraise, Hhub. reflexivity.
Qed.

Lemma credentials_other_error_propagates_witness :
  negotiate Sample.hub_broken Sample.host Sample.conf
            (Sample.start Sample.cached)
  = (Raise (Exception "broken pipe"), Sample.start Sample.cached,
     [HubGetCredentials]).
Proof.
  exact (credentials_other_error_propagates Sample.hub_broken Sample.host
           Sample.conf (Sample.start Sample.cached) _
           eq_refl eq_refl eq_refl).
Defined.

(** X8.  Backup-record step: whenever it completes, the registry holds a
    record and conf.address is that record's address, nothing else of the
    configuration has changed, and the registry's credentials, profile and
    resumable slot are unchanged. *)
Theorem session_address_is_record_address
        (hb : Hub) (host : Host) (conf c : Conf.t) (s s' : State)
        (t : list event) :
  negotiate_backup_record hb host conf s = (Ok c, s', t) ->
  exists r,
    Registry.hbr (registry s') = Some r
    /\ c = Conf.set_address (Some (BackupRecord.address r)) conf
    /\ Registry.credentials (registry s') = Registry.credentials (registry s)
    /\ Registry.profile (registry s') = Registry.profile (registry s)
    /\ Registry.backup_resume_conf (registry s')
       = Registry.backup_resume_conf (registry s).
Proof.
  rewrite negotiate_backup_record_run. cbv zeta.
  destruct (Registry.hbr (registry s)) as [old|] eqn:Hold.
  - destruct (get_backup_record hb (BackupRecord.backup_id old)) as [r|e].
    + intros H; inversion H; subst; clear H. exists r. repeat split.
    + destruct (is_hub_error e); [destruct (is_invalid_backup e)|].
      * destruct (new_backup_record hb _ _ _) as [r|e'];
          intros H; inversion H; subst; clear H. exists r. repeat split.
      * intros H; inversion H; subst; clear H. exists old. repeat split.
        exact Hold.
      * intros H; discriminate H.
  - destruct (new_backup_record hb _ _ _) as [r|e'];
      intros H; inversion H; subst; clear H. exists r. repeat split.
Qed.

Lemma session_address_is_record_address_witness :
  exists r,
    Registry.hbr
      (registry
         (snd (fst (negotiate_backup_record Sample.hub_forgot Sample.host
                      Sample.conf (Sample.start Sample.cached)))))
    = Some r
    /\ BackupRecord.address r = "s3://s3.amazonaws.com/tklbam-8".
Proof.
  destruct (session_address_is_record_address Sample.hub_forgot Sample.host
              Sample.conf _ (Sample.start Sample.cached) _ _ eq_refl)
    as (r & Hr & _).
  exists r. split; [exact Hr|].
  injection Hr as <-. reflexivity.
Defined.

(** X9.  Backup-record step: if new_backup_record raises, the step ends
    with that exception whatever its class; when the cached record had just
    been declared invalid by the Hub, the registry is left with no record at
    all (line 263 has already cleared it). *)
Theorem record_creation_failure
        (hb : Hub) (host : Host) (conf : Conf.t) (s : State) (e : exn) :
  let key := Registry.key (registry s) in
  let create :=
    HubNewBackupRecord key (turnkey_version host) (get_server_id host) in
  new_backup_record hb key (turnkey_version host) (get_server_id host) = Raise e ->
  (Registry.hbr (registry s) = None ->
   negotiate_backup_record hb host conf s = (Raise e, s, [create]))
  /\ (forall old e0,
         Registry.hbr (registry s) = Some old ->
         get_backup_record hb (BackupRecord.backup_id old) = Raise e0 ->
         is_invalid_backup e0 = true ->
         negotiate_backup_record hb host conf s
         = (Raise e, with_registry (Registry.set_hbr None) s,
            [HubGetBackupRecord (BackupRecord.backup_id old);
             Warn "old backup record deleted, creating new ... ";
             StoreHbr None; create])).
Proof.
  cbv zeta. intros Hcreate. split.
  - intros Hnone. rewrite negotiate_backup_record_run. cbv zeta.
    rewrite Hnone, Hcreate. reflexivity.
  - intros old e0 Hold Hraise Hinv. rewrite negotiate_backup_record_run.
    cbv zeta. rewrite Hold, Hraise, Hcreate.
    destruct e0; try discriminate Hinv. reflexivity.
Qed.

Lemma record_creation_failure_witness :
  negotiate_backup_record Sample.hub_down Sample.host Sample.conf
                          (Sample.start Sample.empty)
  = (Raise (HubError "connection refused"), Sample.start Sample.empty,
     [HubNewBackupRecord "passphrase-key" "turnkey-core-12.0-squeeze-x86"
                         (Some "1-example")]).
Proof.
  exact (proj1 (record_creation_failure Sample.hub_down Sample.host
                  Sample.conf (Sample.start Sample.empty) _ eq_refl)
               eq_refl).
Defined.

(** X10.  Implicit resume: without --resume the session resolver never
    fails, changes neither the configuration nor the registry, and turns the
    run into a resume (printing 'ATTEMPTING TO RESUME ABORTED SESSION')
    exactly when the configuration is not simulated and equals the stored
    resumable configuration. *)
Theorem implicit_resume (conf : Conf.t) (s : State) :
  let stored := Registry.backup_resume_conf (registry s) in
  (Conf.simulate conf = false -> stored = Some conf ->
   resolve_session conf false s
   = (Ok (conf, true), s, [Print "ATTEMPTING TO RESUME ABORTED SESSION"]))
  /\ (Conf.simulate conf = true \/ stored <> Some conf ->
      resolve_session conf false s = (Ok (conf, false), s, [])).
Proof.
  cbv zeta. unfold resolve_session. repeat unfold_cmd. cbv beta iota. split.
  - intros Hsim Hst. rewrite Hsim, Hst. unfold Conf.eqb.
    destruct (Conf.eq_dec conf conf) as [_|Hne]; [reflexivity|].
    exfalso. apply Hne. reflexivity.
  - intros H.
    assert (Hno : negb (Conf.simulate conf)
                  && match Registry.backup_resume_conf (registry s) with
                     | Some stored => Conf.eqb stored conf
                     | None => false
                     end = false).
    { destruct H as [Hsim|Hne]; [rewrite Hsim; reflexivity|].
      destruct (Registry.backup_resume_conf (registry s)) as [c|];
        [|apply andb_false_r].
      unfold Conf.eqb. destruct (Conf.eq_dec c conf) as [->|_];
        [exfalso; apply Hne; reflexivity|apply andb_false_r]. }
    rewrite Hno. reflexivity.
Qed.

Lemma implicit_resume_witness :
  resolve_session Sample.conf false (Sample.start Sample.armed)
  = (Ok (Sample.conf, true), Sample.start Sample.armed,
     [Print "ATTEMPTING TO RESUME ABORTED SESSION"]).
Proof.
  exact (proj1 (implicit_resume Sample.conf (Sample.start Sample.armed))
               eq_refl eq_refl).
Defined.

(** ** Resuming *)

(** Lines 283-289 in one equation. *)
Lemma resolve_session_implicit_run conf s :
  resolve_session conf false s
  = let hit :=
      negb (Conf.simulate conf)
      && match Registry.backup_resume_conf (registry s) with
         | Some stored => Conf.eqb stored conf
         | None => false
         end in
    (Ok (conf, hit), s,
     if hit then [Print "ATTEMPTING TO RESUME ABORTED SESSION"] else []).
Proof.
  cbv zeta. unfold resolve_session. repeat unfold_cmd. cbv beta iota.
  destruct (_ && _); reflexivity.
Qed.

Lemma Conf_eqb_refl c : Conf.eqb c c = true.
Proof.
  unfold Conf.eqb. destruct (Conf.eq_dec c c) as [_|H]; [reflexivity|].
  exfalso. apply H. reflexivity.
Qed.

Lemma run_trapped_registry hb host opt_debug opt_resume opt_logfile conf
      hub id s r s1 t1 :
  run_trapped hb host opt_debug opt_resume opt_logfile conf hub id s
  = (r, s1, t1) ->
  registry s1 = registry s.
Proof.
  intros Hrun.
  assert (H : triple (fun reg => reg = registry s) (fun _ => true)
                     (run_trapped hb host opt_debug opt_resume opt_logfile
                                  conf hub id)).
  { apply triple_run_trapped; intros ev _; reflexivity. }
  destruct (H _ _ _ _ Hrun eq_refl) as [Hreg _]. exact Hreg.
Qed.

Lemma hub_negotiator_slot hb host conf0 s0 r s t :
  hub_negotiator hb host conf0 s0 = (r, s, t) ->
  Registry.backup_resume_conf (registry s)
  = Registry.backup_resume_conf (registry s0).
Proof.
  intros Hneg.
  assert (H : triple (fun reg => Registry.backup_resume_conf reg
                                 = Registry.backup_resume_conf (registry s0))
                     (fun ev => negb (is_store_resume ev))
                     (hub_negotiator hb host conf0)).
  { apply triple_hub_negotiator; solve [unchanged | by_cases_on_event]. }
  destruct (H _ _ _ _ Hneg eq_refl) as [HI _]. exact HI.
Qed.

(** X11.  A non-simulated run whose try/finally block raises ends with that
    exception and leaves the working configuration in the resumable slot;
    the next invocation without --resume whose negotiation arrives at the
    same configuration is resumed implicitly and re-arms the slot. *)
Theorem interrupted_run_is_resumed
        (hb : Hub) (host : Host) (conf0 : Conf.t)
        (opt_debug opt_resume0 : bool) (opt_logfile : string) (s0 : State)
        (conf : Conf.t) (opt_resume : bool) (s : State) (t0 : list event)
        (rec : BackupRecord.t) (e : exn) (s1 : State) (t1 : list event) :
  prepare hb host conf0 opt_resume0 s0 = (Ok (conf, opt_resume), s, t0) ->
  Conf.simulate conf = false ->
  Registry.hbr (registry s) = Some rec ->
  run_trapped hb host opt_debug opt_resume opt_logfile conf
              (is_hub_address conf (registry s)) (BackupRecord.backup_id rec) s
  = (Raise e, s1, t1) ->
  (exists t,
      main hb host conf0 opt_debug opt_resume0 opt_logfile s0 = (Raise e, s1, t))
  /\ Registry.backup_resume_conf (registry s1) = Some conf
  /\ forall hb' host' conf0' s2 t2,
      hub_negotiator hb' host' conf0' s1 = (Ok conf, s2, t2) ->
      prepare hb' host' conf0' false s1
      = (Ok (conf, true), with_backup_resume_conf (Some conf) s2,
         t2 ++ [Print "ATTEMPTING TO RESUME ABORTED SESSION";
                StoreBackupResumeConf None;
                StoreBackupResumeConf (Some conf)]).
Proof.
  intros Hprep Hsim Hrec Hrun.
  assert (Hslot : Registry.backup_resume_conf (registry s1) = Some conf).
  { rewrite (run_trapped_registry _ _ _ _ _ _ _ _ _ _ _ _ Hrun).
    destruct (prepare_inv _ _ _ _ _ _ _ _ _ Hprep)
      as (c1 & sa & ta & tb & _ & _ & ->).
    cbn. rewrite Hsim. reflexivity. }
  split; [|split; [exact Hslot|]].
  - eexists. erewrite main_after_prepare by exact Hprep.
    erewrite supervise_run; [|exact Hrec|exact Hrun]. reflexivity.
  - intros hb' host' conf0' s2 t2 Hneg.
    pose proof (hub_negotiator_slot _ _ _ _ _ _ _ Hneg) as Hs2.
    rewrite Hslot in Hs2.
    unfold prepare. unfold bind at 1. rewrite Hneg.
    unfold bind at 1. rewrite resolve_session_implicit_run. cbv zeta.
    rewrite Hs2, Hsim, Conf_eqb_refl. cbn [negb andb]. cbv beta iota.
    unfold bind. rewrite rearm_run, Hsim. reflexivity.
Qed.

Lemma interrupted_run_is_resumed_witness :
  exists s1 c,
    fst (main Sample.hub_up Sample.host_failing Sample.conf false false
              "/var/log/tklbam-backup" (Sample.start Sample.cached))
    = (Raise (Exception "duplicity failed"), s1)
    /\ Registry.backup_resume_conf (registry s1) = Some c.
Proof.
  destruct (interrupted_run_is_resumed Sample.hub_up Sample.host_failing
              Sample.conf false false "/var/log/tklbam-backup"
              (Sample.start Sample.cached) _ _ _ _ _ _ _ _
              eq_refl eq_refl eq_refl eq_refl)
    as ([t Hmain] & Hslot & _).
  eexists. eexists. split; [rewrite Hmain; reflexivity|exact Hslot].
Defined.

(** ** The trapped run and the engine *)

Ltac run_trapped_cases hb host :=
  unfold run_trapped; repeat unfold_cmd; cbv beta iota;
  destruct (hooks_backup_pre host) as [[]|?];
  repeat match goal with
    | |- context [if ?b then _ else _] => is_var b; destruct b; cbv beta iota
    | |- context [match ?x with Ok _ => _ | Raise _ => _ end] =>
        match x with
        | set_backup_inprogress _ _ _ => destruct x as [[]|?]
        | backup_run _ _ _ _ => destruct x as [[]|?]
        | hooks_backup_post _ => destruct x as [[]|?]
        end; cbv beta iota
    end.

(** X12.  Session log: the finally block appends the captured output to the
    log file, once, exactly when the stop notification returns (or is not
    sent) and the trap was not closed by --debug; when the stop notification
    raises, nothing is logged and its exception is the outcome; when it
    returns, the trap is closed exactly once on every path. *)
Theorem session_log
        (hb : Hub) (host : Host) (opt_debug opt_resume : bool)
        (opt_logfile : string) (conf : Conf.t) (hub : bool) (id : string)
        (s s1 : State) (r : result unit) (t1 : list event) :
  run_trapped hb host opt_debug opt_resume opt_logfile conf hub id s
  = (r, s1, t1) ->
  let started :=
    succeeded (hooks_backup_pre host)
    && (negb hub || succeeded (set_backup_inprogress hb id true)) in
  let stopped := negb hub || succeeded (set_backup_inprogress hb id false) in
  filter is_log_append t1
  = (if stopped && negb (opt_debug && started) then [LogAppend opt_logfile]
     else [])
  /\ (stopped = true -> count is_trap_close t1 = 1%nat)
  /\ (stopped = false -> exists e, r = Raise e
                                   /\ set_backup_inprogress hb id false = Raise e).
Proof.
  cbv zeta. revert r s1 t1. run_trapped_cases hb host.
  all: intros r s1 t1 H; inversion H; subst; clear H; cbn.
  all: repeat split; try reflexivity; try discriminate.
  all: try (intros _; eexists; split; reflexivity).
  all: destruct opt_debug; reflexivity.
Qed.

Lemma session_log_witness :
  let '(_, _, t1) :=
    run_trapped Sample.hub_up Sample.host_failing false false
                "/var/log/tklbam-backup" Sample.conf true "7"
                (Sample.start Sample.cached) in
  filter is_log_append t1 = [LogAppend "/var/log/tklbam-backup"].
Proof.
  exact (proj1 (session_log Sample.hub_up Sample.host_failing false false
                  "/var/log/tklbam-backup" Sample.conf true "7"
                  (Sample.start Sample.cached) _ _ _ eq_refl)).
Defined.

(** X13.  Hooks and engine in the try body: the pre hook is always called
    first; the engine runs, once, exactly when the pre hook and (if the run
    is announced to the Hub) the start notification have returned; the post
    hook is called, after the engine, exactly when the engine run has
    returned. *)
Theorem hooks_bracket_engine
        (hb : Hub) (host : Host) (opt_debug opt_resume : bool)
        (opt_logfile : string) (conf : Conf.t) (hub : bool) (id : string)
        (s s1 : State) (r : result unit) (t1 : list event) :
  run_trapped hb host opt_debug opt_resume opt_logfile conf hub id s
  = (r, s1, t1) ->
  let started :=
    succeeded (hooks_backup_pre host)
    && (negb hub || succeeded (set_backup_inprogress hb id true)) in
  steps t1
  = HookPre
      :: (if started
          then EngineRun opt_debug
                 :: (if succeeded (backup_run host conf opt_resume opt_debug)
                     then [HookPost] else [])
          else []).
Proof.
  cbv zeta. revert r s1 t1. run_trapped_cases hb host.
  all: intros r s1 t1 H; inversion H; subst; clear H; cbn.
  all: try reflexivity.
  all: repeat match goal with
         | |- context [backup_run ?h ?c ?a ?b] =>
             destruct (backup_run h c a b) as [[]|?]
         end; reflexivity.
Qed.

Lemma hooks_bracket_engine_witness :
  let '(_, _, t1) :=
    run_trapped Sample.hub_up Sample.host_failing false false
                "/var/log/tklbam-backup" Sample.conf true "7"
                (Sample.start Sample.cached) in
  steps t1 = [HookPre; EngineRun false].
Proof.
  exact (hooks_bracket_engine Sample.hub_up Sample.host_failing false false
           "/var/log/tklbam-backup" Sample.conf true "7"
           (Sample.start Sample.cached) _ _ _ eq_refl).
Defined.

(** X14.  In every run of main the engine is constructed at most once, run
    at most once and only after it was constructed, cleaned up at most once
    and only after it was constructed, and the Hub's updated_backup is
    called at most once and only after a cleanup. *)
Theorem engine_used_at_most_once
        (hb : Hub) (host : Host) (conf : Conf.t)
        (opt_debug opt_resume : bool) (opt_logfile : string)
        (s s' : State) (r : result unit) (t : list event) :
  main hb host conf opt_debug opt_resume opt_logfile s = (r, s', t) ->
  (count is_engine_new t <= 1
   /\ count is_engine_run t <= count is_engine_new t
   /\ count is_engine_cleanup t <= count is_engine_new t
   /\ count is_updated_backup t <= count is_engine_cleanup t)%nat.
Proof.
  intros Hmain. unfold main in Hmain. apply bind_inv in Hmain.
  destruct Hmain as [(e & Hp & ->)|([c rs] & s1 & t0 & t2 & Hp & Hsup & ->)].
  - pose proof (prepare_quiet _ _ _ _ _ _ _ _ Hp) as Hq.
    rewrite !(count_weaken _ supervisor_event t) by
        (first [exact Hq | by_cases_on_event]).
    lia.
  - pose proof (prepare_quiet _ _ _ _ _ _ _ _ Hp) as Hq.
    rewrite !count_app.
    rewrite !(count_weaken _ supervisor_event t0) by
        (first [exact Hq | by_cases_on_event]).
    cbn [Nat.add].
    destruct (Registry.hbr (registry s1)) as [rec|] eqn:Hrec.
    + destruct (run_trapped hb host opt_debug rs opt_logfile c
                            (is_hub_address c (registry s1))
                            (BackupRecord.backup_id rec) s1)
        as [[rt sr] tr] eqn:Hrun.
      erewrite supervise_run in Hsup; [|exact Hrec|exact Hrun].
      pose proof (run_trapped_no_completion _ _ _ _ _ _ _ _ _ _ _ _ Hrun) as Hc.
      assert (Hruns : (count is_engine_run tr <= 1)%nat).
      { rewrite <- (count_timeline is_engine_run tr) by by_cases_on_event.
        rewrite (run_trapped_timeline _ _ _ _ _ _ _ _ _ _ _ _ Hrun).
        destruct (hooks_backup_pre host);
          destruct (is_hub_address c (registry s1));
          try destruct (set_backup_inprogress hb _ true); cbn; lia. }
      destruct rt as [[]|e];
        [destruct (Conf.simulate c)|destruct (Conf.checkpoint_restore c)];
        inversion Hsup; subst; clear Hsup;
        change (EngineNew c rs :: tr ++ ?x)
          with ([EngineNew c rs] ++ tr ++ x);
        rewrite !count_app;
        rewrite (count_weaken is_engine_new completion_event tr),
          (count_weaken is_engine_cleanup completion_event tr),
          (count_weaken is_updated_backup completion_event tr)
          by (first [exact Hc | by_cases_on_event]);
        unfold count in *; cbn; lia.
    + rewrite supervise_without_record in Hsup by exact Hrec.
      inversion Hsup; subst. cbn. lia.
Qed.

Lemma engine_used_at_most_once_witness :
  let '(_, _, t) :=
    main Sample.hub_up Sample.host Sample.conf false false
         "/var/log/tklbam-backup" (Sample.start Sample.cached) in
  (count is_engine_new t <= 1
   /\ count is_engine_run t <= count is_engine_new t
   /\ count is_engine_cleanup t <= count is_engine_new t
   /\ count is_updated_backup t <= count is_engine_cleanup t)%nat.
Proof.
  exact (engine_used_at_most_once Sample.hub_up Sample.host Sample.conf
           false false "/var/log/tklbam-backup" (Sample.start Sample.cached)
           _ _ _ eq_refl).
Defined.

(** ** Whole runs *)

Section Whole.

Variable hb : Hub.
Variable host : Host.
Variable I : Registry.t -> Prop.
Variable P : event -> bool.

Hypothesis I_profile : forall p, stable I (Registry.set_profile p).
Hypothesis I_credentials : forall c, stable I (Registry.set_credentials c).
Hypothesis I_hbr : forall h, stable I (Registry.set_hbr h).
Hypothesis I_resume : forall c, stable I (Registry.set_backup_resume_conf c).

Hypothesis P_terminal : accepts P terminal_event.
Hypothesis P_setup : accepts P setup_event.
Hypothesis P_profile : accepts P profile_event.
Hypothesis P_negotiation : accepts P negotiation_event.
Hypothesis P_resume : accepts P is_store_resume.
Hypothesis P_trapped : accepts P trapped_event.
Hypothesis P_completion : accepts P completion_event.

Lemma triple_main conf opt_debug opt_resume opt_logfile :
  triple I P (main hb host conf opt_debug opt_resume opt_logfile).
Proof.
  unfold main. triple_auto; [apply triple_prepare|apply triple_supervise];
    assumption.
Qed.

(** With a profile given on the command line the Hub negotiator leaves
    profiles alone. *)
Lemma triple_main_given_profile conf opt_debug opt_resume opt_logfile :
  truthy (Conf.profile conf) = true ->
  triple I P (main hb host conf opt_debug opt_resume opt_logfile).
Proof.
  intros Hprofile. unfold main, prepare, hub_negotiator, negotiate_profile.
  rewrite Hprofile. cbn [negb].
  triple_auto;
    first [ apply triple_acquire_lock | apply triple_check_parallel_uploads
          | apply triple_negotiate | apply triple_resolve_session
          | apply triple_rearm | apply triple_supervise ];
    assumption.
Qed.

End Whole.

(** X15.  No run of main, however it ends, changes the registry's Hub API
    key (sub_apikey) or its passphrase key. *)
Theorem registry_keys_are_never_written
        (hb : Hub) (host : Host) (conf : Conf.t)
        (opt_debug opt_resume : bool) (opt_logfile : string)
        (s s' : State) (r : result unit) (t : list event) :
  main hb host conf opt_debug opt_resume opt_logfile s = (r, s', t) ->
  Registry.sub_apikey (registry s') = Registry.sub_apikey (registry s)
  /\ Registry.key (registry s') = Registry.key (registry s).
Proof.
  intros Hmain.
  assert (H : triple (fun reg =>
                        Registry.sub_apikey reg = Registry.sub_apikey (registry s)
                        /\ Registry.key reg = Registry.key (registry s))
                     (fun _ => true)
                     (main hb host conf opt_debug opt_resume opt_logfile)).
  { apply triple_main; solve [unchanged | intros ev _; reflexivity]. }
  destruct (H _ _ _ _ Hmain) as [HI _]; [split; reflexivity|exact HI].
Qed.

Lemma registry_keys_are_never_written_witness :
  let '(_, s', _) :=
    main Sample.hub_forgot Sample.host Sample.conf false false
         "/var/log/tklbam-backup" (Sample.start Sample.cached) in
  Registry.sub_apikey (registry s') = "APIKEY"
  /\ Registry.key (registry s') = "passphrase-key".
Proof.
  exact (registry_keys_are_never_written Sample.hub_forgot Sample.host
           Sample.conf false false "/var/log/tklbam-backup"
           (Sample.start Sample.cached) _ _ _ eq_refl).
Defined.

(** X16.  When the configuration already names a profile (--profile with a
    non-empty value), no run of main asks the Hub for a profile or writes
    registry.profile, however the run ends. *)
Theorem given_profile_is_not_refreshed
        (hb : Hub) (host : Host) (conf : Conf.t)
        (opt_debug opt_resume : bool) (opt_logfile : string)
        (s s' : State) (r : result unit) (t : list event) :
  truthy (Conf.profile conf) = true ->
  main hb host conf opt_debug opt_resume opt_logfile s = (r, s', t) ->
  count profile_event t = 0%nat
  /\ Registry.profile (registry s') = Registry.profile (registry s).
Proof.
  intros Hprofile Hmain.
  assert (H : triple (fun reg => Registry.profile reg = Registry.profile (registry s))
                     (fun ev => negb (profile_event ev))
                     (main hb host conf opt_debug opt_resume opt_logfile)).
  { apply triple_main_given_profile;
      solve [unchanged | by_cases_on_event | exact Hprofile]. }
  destruct (H _ _ _ _ Hmain eq_refl) as [HI Ht].
  split; [apply forallb_count_zero; exact Ht|exact HI].
Qed.

Lemma given_profile_is_not_refreshed_witness :
  let '(_, s', t) :=
    main Sample.hub_up Sample.host Sample.with_profile false false
         "/var/log/tklbam-backup" (Sample.start Sample.empty) in
  count profile_event t = 0%nat
  /\ Registry.profile (registry s') = None.
Proof.
  exact (given_profile_is_not_refreshed Sample.hub_up Sample.host
           Sample.with_profile false false "/var/log/tklbam-backup"
           (Sample.start Sample.empty) _ _ _ eq_refl eq_refl).
Defined.

Lemma lookup_none key d :
  lookup key d = None <-> forall v, ~ In (key, v) d.
Proof.
  induction d as [|[k v] d [IH1 IH2]]; cbn [lookup].
  - split; [intros _ v []|reflexivity].
  - destruct (String.eqb_spec key k) as [<-|Hk].
    + split; [discriminate|]. intros H. exfalso. apply (H v). left. reflexivity.
    + split.
      * intros H w [Hw|Hw]; [inversion Hw; subst; apply Hk; reflexivity
                            |apply (IH1 H w Hw)].
      * intros H. apply IH2. intros w Hw. apply (H w). right. exact Hw.
Qed.

Lemma lookup_first key before v after :
  (forall w, ~ In (key, w) before) ->
  lookup key (before ++ (key, v) :: after) = Some v.
Proof.
  intros Hbefore. induction before as [|[k w] before IH]; cbn [lookup app].
  - rewrite String.eqb_refl. reflexivity.
  - destruct (String.eqb_spec key k) as [<-|Hk].
    + exfalso. apply (Hbefore w). left. reflexivity.
    + apply IH. intros x Hx. apply (Hbefore x). right. exact Hx.
Qed.

Lemma lookup_in key v d :
  NoDup (map fst d) -> In (key, v) d -> lookup key d = Some v.
Proof.
  induction d as [|[k w] d IH]; cbn [lookup map fst]; [intros _ []|].
  intros Hnd [Hin|Hin].
  - inversion Hin; subst. rewrite String.eqb_refl. reflexivity.
  - inversion Hnd as [|? ? Hk Hd]; subst.
    destruct (String.eqb_spec key k) as [<-|_]; [|apply IH; assumption].
    exfalso. apply Hk. apply (in_map fst) in Hin. exact Hin.
Qed.

(** X17.  get_server_id returns None exactly when the server configuration
    has no 'serverid' entry (the KeyError case), and otherwise the value
    stored under that key. *)
Theorem get_server_id_missing_key (host : Host) :
  (get_server_id host = None
   <-> forall v, ~ In ("serverid", v) (server_conf host))
  /\ forall v,
      NoDup (map fst (server_conf host)) ->
      In ("serverid", v) (server_conf host) ->
      get_server_id host = Some v.
Proof.
  unfold get_server_id. split; [apply lookup_none|].
  intros v Hnd Hin. apply lookup_in; assumption.
Qed.

Lemma get_server_id_missing_key_witness :
  get_server_id Sample.host = Some "1-example".
Proof.
  apply (proj2 (get_server_id_missing_key Sample.host)).
  - repeat constructor. intros [].
  - left. reflexivity.
Defined.

Lemma check_parallel_uploads_run conf s :
  check_parallel_uploads conf s
  = (Ok tt, s, snd (check_parallel_uploads conf s)).
Proof.
  unfold check_parallel_uploads, when, warn, emit, ret.
  destruct (_ && _); reflexivity.
Qed.

Lemma check_parallel_uploads_trace conf s :
  snd (check_parallel_uploads conf s) = []
  \/ exists m, snd (check_parallel_uploads conf s) = [Warn m].
Proof.
  unfold check_parallel_uploads, when, warn, emit, ret.
  destruct (_ && _); [right; eexists|left]; reflexivity.
Qed.

(** X18.  Hub outage: with the Hub unreachable (every call raises the same
    general Hub error), a free lock and profile, credentials and backup
    record all cached, a Hub-managed non-simulated run falls back on the
    cache with exactly three Hub warnings, builds the engine, but never runs
    it: the start notification fails, main raises the Hub's error and the
    session is left armed for a resume. *)
Theorem hub_outage_stops_the_backup
        (hb : Hub) (host : Host) (conf0 : Conf.t)
        (opt_debug : bool) (opt_logfile : string) (s0 : State)
        (e : exn) (p : Profile) (k : Credentials) (rec : BackupRecord.t) :
  unreachable hb e ->
  locked host = false ->
  hooks_backup_pre host = Ok tt ->
  truthy (Conf.profile conf0) = false ->
  truthy (Conf.address conf0) = false ->
  Conf.simulate conf0 = false ->
  Registry.profile (registry s0) = Some p ->
  Registry.credentials (registry s0) = Some k ->
  Registry.hbr (registry s0) = Some rec ->
  let conf :=
    Conf.set_address (Some (BackupRecord.address rec))
      (Conf.set_credentials (Some k)
         (Conf.set_profile (Some (ProfileObj p)) conf0)) in
  exists t,
    main hb host conf0 opt_debug false opt_logfile s0
    = (Raise e,
       {| registry := Registry.set_backup_resume_conf (Some conf) (registry s0);
          trap := true |},
       t)
    /\ count is_engine_run t = 0%nat
    /\ count is_engine_new t = 1%nat
    /\ filter is_warn t
       = filter is_warn (snd (check_parallel_uploads conf0 s0))
         ++ [Warn ("using cached profile because of a Hub error: " ++ str e);
             Warn (str e); Warn (str e)].
Proof.
  intros (Hhub & Hsub & Hinv & Hprof & Hcred & Hrec & Hprog)
         Hlock Hpre Hprofile Haddr Hsim Hp Hk Hr. cbv zeta.
  assert (Hneg : hub_negotiator hb host conf0 s0
                 = (Ok (Conf.set_address (Some (BackupRecord.address rec))
                          (Conf.set_credentials (Some k)
                             (Conf.set_profile (Some (ProfileObj p)) conf0))),
                    s0,
                    LockAcquired
                      :: snd (check_parallel_uploads conf0 s0)
                      ++ [HubBackups (Registry.sub_apikey (registry s0));
                          HubGetNewProfile (turnkey_version host)
                                           (Some (timestamp p));
                          Warn ("using cached profile because of a Hub error: "
                                  ++ str e);
                          HubGetCredentials; Warn (str e);
                          HubGetBackupRecord (BackupRecord.backup_id rec);
                          Warn (str e)])).
  { unfold hub_negotiator, negotiate_profile, negotiate, acquire_lock.
    rewrite Hlock, Hprofile. cbn [negb].
    unfold bind at 1. unfold emit at 1. cbv beta iota.
    unfold bind at 1. rewrite check_parallel_uploads_run. cbv beta iota.
    unfold bind at 1. unfold get_registry at 1. cbv beta iota.
    unfold bind at 1. unfold emit at 1. cbv beta iota.
    unfold bind at 1. unfold bind at 1.
    rewrite get_profile_run. cbv zeta. rewrite Hp. cbn [option_map].
    rewrite Hprof, Hhub. unfold ret at 1. cbv beta iota.
    cbn [Conf.address Conf.set_profile]. rewrite Haddr. cbn [negb].
    unfold bind at 1. rewrite negotiate_credentials_run, Hcred, Hhub, Hsub, Hk.
    rewrite negotiate_backup_record_run. cbv zeta.
    rewrite Hr, Hrec, Hhub, Hinv.
    reflexivity. }
  erewrite main_after_negotiation by exact Hneg.
  set (conf := Conf.set_address _ _) in *.
  unfold bind at 1. rewrite resolve_session_implicit_run. cbv zeta.
  set (hit := negb _ && _). cbv beta iota.
  unfold bind at 1. rewrite rearm_run.
  assert (Hsimc : Conf.simulate conf = false) by exact Hsim.
  rewrite Hsimc.
  assert (Hhubaddr : is_hub_address conf
            (registry (with_backup_resume_conf (Some conf) s0)) = true).
  { unfold is_hub_address. rewrite Hsimc.
    cbn [with_backup_resume_conf registry Registry.hbr
         Registry.set_backup_resume_conf].
    rewrite Hr. subst conf. cbn [Conf.address Conf.set_address].
    rewrite String.eqb_refl. reflexivity. }
  assert (Hrun : run_trapped hb host opt_debug hit opt_logfile conf
                   (is_hub_address conf
                      (registry (with_backup_resume_conf (Some conf) s0)))
                   (BackupRecord.backup_id rec)
                   (with_backup_resume_conf (Some conf) s0)
                 = (Raise e,
                    {| registry := Registry.set_backup_resume_conf (Some conf)
                                     (registry s0);
                       trap := true |},
                    [TrapOpen; HookPre;
                     HubSetBackupInprogress (BackupRecord.backup_id rec) true;
                     HubSetBackupInprogress (BackupRecord.backup_id rec) false])).
  { rewrite Hhubaddr. unfold run_trapped. rewrite Hpre, !Hprog.
    reflexivity. }
  erewrite supervise_run; [|cbn; exact Hr|exact Hrun].
  cbv beta iota.
  eexists. split; [reflexivity|].
  clearbody hit.
  destruct (check_parallel_uploads_trace conf0 s0) as [Hw|[m Hw]]; rewrite Hw;
    destruct hit, (Conf.checkpoint_restore conf);
    repeat split; reflexivity.
Qed.

Lemma hub_outage_stops_the_backup_witness :
  exists s t,
    main Sample.hub_down Sample.host Sample.conf false false
         "/var/log/tklbam-backup" (Sample.start Sample.cached)
    = (Raise (HubError "connection refused"), s, t)
    /\ count is_engine_run t = 0%nat.
Proof.
  destruct (hub_outage_stops_the_backup Sample.hub_down Sample.host
              Sample.conf false "/var/log/tklbam-backup"
              (Sample.start Sample.cached) (HubError "connection refused")
              Sample.stock_profile Sample.keys Sample.cached_record)
    as (t & Hmain & Hrun & _).
  - repeat split; reflexivity.
  - reflexivity.
  - reflexivity.
  - reflexivity.
  - reflexivity.
  - reflexivity.
  - reflexivity.
  - reflexivity.
  - reflexivity.
  - eexists. exists t. split; [exact Hmain|exact Hrun].
Defined.

(** The negotiator neither touches the resumable slot nor does anything of
    the supervisor. *)
Lemma hub_negotiator_quiet hb host conf0 s0 r s t :
  hub_negotiator hb host conf0 s0 = (r, s, t) ->
  forallb (fun ev => negb (supervisor_event ev || is_store_resume ev)) t = true.
Proof.
  intros Hneg.
  assert (H : triple (fun _ => True)
                     (fun ev => negb (supervisor_event ev || is_store_resume ev))
                     (hub_negotiator hb host conf0)).
  { apply triple_hub_negotiator; solve [unchanged | by_cases_on_event]. }
  destruct (H _ _ _ _ Hneg Logic.I) as [_ Ht]. exact Ht.
Qed.

Lemma count_zero_not_in (K : event -> bool) t ev :
  count K t = 0%nat -> K ev = true -> ~ In ev t.
Proof.
  unfold count. intros Hc Hev Hin.
  assert (Hf : In ev (filter K t)) by (apply filter_In; split; assumption).
  destruct (filter K t); [exact Hf|discriminate Hc].
Qed.

Lemma engine_new_in t1 x c rs :
  count is_engine_new t1 = 0%nat ->
  In (EngineNew c rs) (t1 ++ x) -> In (EngineNew c rs) x.
Proof.
  intros Hd Hin. apply in_app_or in Hin. destruct Hin as [Hin|Hin].
  - exfalso. exact (count_zero_not_in is_engine_new _ (EngineNew c rs) Hd eq_refl Hin).
  - exact Hin.
Qed.

Ltac split5 := split; [|split; [|split; [|split]]].

(** X19.  A simulated run (conf.simulate set, with or without --resume),
    however it ends: the Hub is never told that a backup is in progress or
    was updated, the resumable slot is never armed, an engine is only ever
    built for a simulated configuration without resume, and the slot is
    empty at the end as soon as line 291 was reached (unchanged before). *)
Theorem simulated_run_leaves_no_mark
        (hb : Hub) (host : Host) (conf0 : Conf.t)
        (opt_debug opt_resume : bool) (opt_logfile : string)
        (s0 s' : State) (r : result unit) (t : list event) :
  Conf.simulate conf0 = true ->
  main hb host conf0 opt_debug opt_resume opt_logfile s0 = (r, s', t) ->
  count is_inprogress t = 0%nat
  /\ count is_updated_backup t = 0%nat
  /\ count is_arm t = 0%nat
  /\ (forall c rs, In (EngineNew c rs) t ->
                   rs = false /\ Conf.simulate c = true)
  /\ Registry.backup_resume_conf (registry s')
     = if (count is_store_resume t =? 0)%nat
       then Registry.backup_resume_conf (registry s0)
       else None.
Proof.
  intros Hsim Hmain.
  pose proof (hub_negotiator_quiet hb host conf0 s0) as Hq.
  pose proof (hub_negotiator_slot hb host conf0 s0) as Hslot.
  destruct (hub_negotiator hb host conf0 s0) as [[[c1|e] s1] t1] eqn:Hneg.
  - specialize (Hq _ _ _ eq_refl). specialize (Hslot _ _ _ eq_refl).
    assert (Hsim1 : Conf.simulate c1 = true).
    { rewrite <- Hsim. apply (hub_negotiator_returns hb host).
      exists s0, s1, t1. exact Hneg. }
    assert (H1 : count is_inprogress t1 = 0%nat
                 /\ count is_updated_backup t1 = 0%nat
                 /\ count is_arm t1 = 0%nat
                 /\ count is_engine_new t1 = 0%nat
                 /\ count is_store_resume t1 = 0%nat).
    { split5;
        apply (count_weaken _ (fun ev => supervisor_event ev
                                         || is_store_resume ev));
        first [exact Hq | by_cases_on_event]. }
    destruct H1 as (Ha & Hb & Hc & Hd & He).
    erewrite main_after_negotiation in Hmain by exact Hneg.
    destruct opt_resume.
    + unfold resolve_session in Hmain. rewrite Hsim1 in Hmain.
      cbn in Hmain. inversion Hmain; subst; clear Hmain.
      rewrite !count_app, Ha, Hb, Hc, He. cbn.
      split5; try reflexivity; [|exact Hslot].
      intros c rs Hin. apply (engine_new_in _ _ _ _ Hd) in Hin.
      destruct Hin as [Hin|[]]; discriminate Hin.
    + unfold bind at 1 in Hmain.
      rewrite resolve_session_implicit_run in Hmain. cbv zeta in Hmain.
      rewrite Hsim1 in Hmain. cbn [negb andb] in Hmain.
      cbv beta iota in Hmain.
      unfold bind at 1 in Hmain. rewrite rearm_run, Hsim1 in Hmain.
      destruct (Registry.hbr (registry s1)) as [rec|] eqn:Hrec.
      * destruct (run_trapped hb host opt_debug false opt_logfile c1
                    (is_hub_address c1
                       (registry (with_backup_resume_conf None s1)))
                    (BackupRecord.backup_id rec)
                    (with_backup_resume_conf None s1))
          as [[rt sr] tr] eqn:Hrun.
        erewrite supervise_run in Hmain; [|exact Hrec|exact Hrun].
        pose proof (run_trapped_registry _ _ _ _ _ _ _ _ _ _ _ _ Hrun) as Hreg.
        pose proof (run_trapped_no_completion _ _ _ _ _ _ _ _ _ _ _ _ Hrun)
          as Hcomp.
        pose proof (run_trapped_timeline _ _ _ _ _ _ _ _ _ _ _ _ Hrun) as Htl.
        unfold is_hub_address in Htl. rewrite Hsim1 in Htl.
        cbn [negb andb] in Htl.
        assert (Hi : count is_inprogress tr = 0%nat).
        { rewrite <- (count_timeline is_inprogress tr) by by_cases_on_event.
          rewrite Htl. destruct (hooks_backup_pre host); reflexivity. }
        assert (Hu : count is_updated_backup tr = 0%nat
                     /\ count is_engine_new tr = 0%nat).
        { split; apply (count_weaken _ completion_event);
            first [exact Hcomp | by_cases_on_event]. }
        destruct Hu as [Hu Hn].
        assert (Hr : count is_arm tr = 0%nat
                     /\ count is_store_resume tr = 0%nat).
        { assert (H : triple (fun _ => True)
                             (fun ev => negb (is_store_resume ev))
                             (run_trapped hb host opt_debug false opt_logfile c1
                                (is_hub_address c1
                                   (registry (with_backup_resume_conf None s1)))
                                (BackupRecord.backup_id rec))).
          { apply triple_run_trapped; by_cases_on_event. }
          destruct (H _ _ _ _ Hrun Logic.I) as [_ Ht].
          split; apply (count_weaken _ is_store_resume);
            first [exact Ht | by_cases_on_event]. }
        destruct Hr as [Hr Hs].
        assert (Hsr : Registry.backup_resume_conf (registry sr) = None).
        { rewrite Hreg. reflexivity. }
        rewrite Hsim1 in Hmain.
        destruct rt as [[]|e]; [|destruct (Conf.checkpoint_restore c1)];
          inversion Hmain; subst; clear Hmain;
          change (StoreBackupResumeConf None :: EngineNew c1 false :: tr ++ ?x)
            with ([StoreBackupResumeConf None; EngineNew c1 false] ++ tr ++ x);
          rewrite ?app_nil_l, !count_app, Ha, Hb, Hc, He, Hi, Hu, Hr, Hs;
          (split5; try reflexivity; try exact Hsr;
           intros c rs Hin;
           apply (engine_new_in _ _ _ _ Hd) in Hin;
           destruct Hin as [Hin|[Hin|Hin]];
           [discriminate Hin
           |inversion Hin; subst; split; [reflexivity|exact Hsim1]|];
           apply (engine_new_in _ _ _ _ Hn) in Hin;
           repeat (destruct Hin as [Hin|Hin]; try discriminate Hin);
           contradiction).
      * rewrite supervise_without_record in Hmain by exact Hrec.
        inversion Hmain; subst; clear Hmain.
        rewrite !count_app, Ha, Hb, Hc, He.
        split5; try reflexivity.
        intros c rs Hin. apply (engine_new_in _ _ _ _ Hd) in Hin.
        repeat (destruct Hin as [Hin|Hin]; try discriminate Hin).
        contradiction.
  - specialize (Hq _ _ _ eq_refl). specialize (Hslot _ _ _ eq_refl).
    unfold main, prepare in Hmain. unfold bind in Hmain.
    rewrite Hneg in Hmain. inversion Hmain; subst; clear Hmain.
    assert (H1 : count is_inprogress t = 0%nat
                 /\ count is_updated_backup t = 0%nat
                 /\ count is_arm t = 0%nat
                 /\ count is_engine_new t = 0%nat
                 /\ count is_store_resume t = 0%nat).
    { split5;
        apply (count_weaken _ (fun ev => supervisor_event ev
                                         || is_store_resume ev));
        first [exact Hq | by_cases_on_event]. }
    destruct H1 as (Ha & Hb & Hc & Hd & He).
    rewrite He. split5; try assumption.
    intros c rs Hin. exfalso. exact (count_zero_not_in is_engine_new _ (EngineNew c rs) Hd eq_refl Hin).
Qed.

Lemma simulated_run_leaves_no_mark_witness :
  let '(_, s', t) :=
    main Sample.hub_up Sample.host (Sample.with_simulate Sample.conf)
         false false "/var/log/tklbam-backup" (Sample.start Sample.armed) in
  count is_inprogress t = 0%nat
  /\ count is_updated_backup t = 0%nat
  /\ count is_arm t = 0%nat
  /\ Registry.backup_resume_conf (registry s') = None.
Proof.
  pose proof (simulated_run_leaves_no_mark Sample.hub_up Sample.host
                (Sample.with_simulate Sample.conf) false false
                "/var/log/tklbam-backup" (Sample.start Sample.armed)
                _ _ _ eq_refl eq_refl) as (H1 & H2 & H3 & _ & H5).
  exact (conj H1 (conj H2 (conj H3 H5))).
Defined.

(** X20.  A run of main that ends normally leaves the resumable slot empty,
    so the next invocation without --resume is never taken for a resume,
    whatever configuration its negotiation arrives at. *)
Theorem completed_run_starts_fresh
        (hb : Hub) (host : Host) (conf0 : Conf.t)
        (opt_debug opt_resume : bool) (opt_logfile : string)
        (s0 s' : State) (u : unit) (t : list event) :
  main hb host conf0 opt_debug opt_resume opt_logfile s0 = (Ok u, s', t) ->
  Registry.backup_resume_conf (registry s') = None
  /\ forall hb' host' conf' c s2 t2,
      hub_negotiator hb' host' conf' s' = (Ok c, s2, t2) ->
      prepare hb' host' conf' false s'
      = (Ok (c, false),
         with_backup_resume_conf
           (if Conf.simulate c then None else Some c) s2,
         t2 ++ StoreBackupResumeConf None
            :: (if Conf.simulate c then []
                else [StoreBackupResumeConf (Some c)])).
Proof.
  intros Hmain.
  assert (Hslot : Registry.backup_resume_conf (registry s') = None).
  { unfold main in Hmain. apply bind_inv in Hmain.
    destruct Hmain as [(e & _ & He)|([c rs] & s1 & t0 & t2 & _ & Hsup & _)];
      [discriminate He|].
    destruct (Registry.hbr (registry s1)) as [rec|] eqn:Hrec.
    - destruct (run_trapped hb host opt_debug rs opt_logfile c
                  (is_hub_address c (registry s1))
                  (BackupRecord.backup_id rec) s1)
        as [[rt sr] tr] eqn:Hrun.
      erewrite supervise_run in Hsup; [|exact Hrec|exact Hrun].
      destruct rt as [[]|e]; [|discriminate Hsup].
      destruct (Conf.simulate c); inversion Hsup; reflexivity.
    - rewrite supervise_without_record in Hsup by exact Hrec.
      discriminate Hsup. }
  split; [exact Hslot|].
  intros hb' host' conf' c s2 t2 Hneg.
  pose proof (hub_negotiator_slot _ _ _ _ _ _ _ Hneg) as Hs2.
  rewrite Hslot in Hs2.
  unfold prepare. unfold bind at 1. rewrite Hneg.
  unfold bind at 1. rewrite resolve_session_implicit_run. cbv zeta.
  rewrite Hs2, andb_false_r. cbv beta iota.
  unfold bind. rewrite rearm_run. unfold ret.
  rewrite app_nil_l, app_nil_r. reflexivity.
Qed.

Lemma completed_run_starts_fresh_witness :
  let '(_, s', _) :=
    main Sample.hub_up Sample.host Sample.conf false false
         "/var/log/tklbam-backup" (Sample.start Sample.armed) in
  Registry.backup_resume_conf (registry s') = None.
Proof.
  exact (proj1 (completed_run_starts_fresh Sample.hub_up Sample.host
                  Sample.conf false false "/var/log/tklbam-backup"
                  (Sample.start Sample.armed) _ _ _ eq_refl)).
Defined.

(** ** The option loop (lines 148-218) *)

(** Case analysis on the name of an option, then evaluation of the tests
    of the loop body on that name. *)
Ltac by_option :=
  repeat match goal with
    | |- context [String.eqb ?o ?s] =>
        is_var o; destruct (String.eqb_spec o s) as [->|?]
    end;
  repeat match goal with
    | |- context [String.eqb ?a ?b] =>
        let v := eval vm_compute in (String.eqb a b) in
        change (String.eqb a b) with v
    end;
  cbv beta iota delta [orb andb].

Ltac by_oracle :=
  repeat match goal with
    | |- context [if negb ?b then _ else _] =>
        destruct b; cbv beta iota delta [negb]
    | |- context [match ?x with Ok _ => _ | Raise _ => _ end] =>
        match x with
        | to_volsize _ _ => destruct x eqn:?
        | to_s3_parallel_uploads _ _ => destruct x eqn:?
        | to_full_backup _ _ => destruct x eqn:?
        end
    end.

(** Whether an option stops the program, and why, does not depend on what
    the options before it have set. *)
Lemma option_step_verdict cli l l' o :
  match option_step cli l o, option_step cli l' o with
  | Continue _, Continue _ => True
  | Stop w, Stop w' => w = w'
  | _, _ => False
  end.
Proof.
  destruct o as [opt val]. unfold option_step.
  by_option; try exact Logic.I; by_oracle; auto.
Qed.

Lemma option_step_stop cli l l' o w :
  option_step cli l o = Stop w -> option_step cli l' o = Stop w.
Proof.
  intros H. pose proof (option_step_verdict cli l l' o) as V.
  rewrite H in V. destruct (option_step cli l' o); [contradiction|].
  congruence.
Qed.

Lemma option_step_continue cli l l' o l1 :
  option_step cli l o = Continue l1 ->
  exists l2, option_step cli l' o = Continue l2.
Proof.
  intros H. pose proof (option_step_verdict cli l l' o) as V.
  rewrite H in V. destruct (option_step cli l' o) as [l2|];
    [exists l2; reflexivity|contradiction].
Qed.

Lemma option_loop_app cli a b l :
  option_loop cli (a ++ b) l
  = match option_loop cli a l with
    | Continue l1 => option_loop cli b l1
    | Stop w => Stop w
    end.
Proof.
  revert l. induction a as [|o a IH]; intros l; cbn [app option_loop];
    [reflexivity|].
  destruct (option_step cli l o); [apply IH|reflexivity].
Qed.

Lemma options_alone_continue cli o :
  (exists l, options cli (inr ([o], [])) = Continue l)
  <-> exists l, option_step cli (initial cli) o = Continue l.
Proof.
  unfold options. cbn [option_loop].
  destruct (option_step cli (initial cli) o) as [l1|w].
  - split; intros _; eexists; reflexivity.
  - split; intros [l H]; discriminate H.
Qed.

Lemma options_alone_stop cli o w :
  options cli (inr ([o], [])) = Stop w
  <-> option_step cli (initial cli) o = Stop w.
Proof.
  unfold options. cbn [option_loop].
  destruct (option_step cli (initial cli) o) as [l1|w'].
  - split; intros H; discriminate H.
  - split; intros H; exact H.
Qed.

Lemma option_loop_continue cli opts l :
  (forall o, In o opts ->
             exists l1, option_step cli (initial cli) o = Continue l1) ->
  exists l', option_loop cli opts l = Continue l'.
Proof.
  revert l. induction opts as [|o opts IH]; intros l Hall; cbn [option_loop].
  - eexists; reflexivity.
  - destruct (Hall o (or_introl eq_refl)) as [l1 H1].
    destruct (option_step_continue cli _ l _ _ H1) as [l2 H2].
    rewrite H2. apply IH. intros o' Hin. apply Hall. right. exact Hin.
Qed.

Lemma option_loop_first_stop cli before o after l w :
  (forall o', In o' before ->
              exists l1, option_step cli (initial cli) o' = Continue l1) ->
  option_step cli (initial cli) o = Stop w ->
  option_loop cli (before ++ o :: after) l = Stop w.
Proof.
  intros Hbefore Ho. rewrite option_loop_app.
  destruct (option_loop_continue cli before l Hbefore) as [l1 H1].
  rewrite H1. cbn [option_loop].
  rewrite (option_step_stop cli _ l1 _ _ Ho). reflexivity.
Qed.

(** X21.  Option loop: when every option before it is acceptable, the first
    option that would be rejected on its own (a missing --secretfile, an
    unwriteable --logfile, a value the configuration refuses, -h/--help)
    ends the program with exactly the verdict it would get on its own,
    whatever options and arguments follow it. *)
Theorem first_rejected_option_decides
        (cli : Cli) (before after : list (string * string))
        (o : string * string) (args : list string) (w : stop) :
  (forall o', In o' before ->
              exists l, options cli (inr ([o'], [])) = Continue l) ->
  options cli (inr ([o], [])) = Stop w ->
  options cli (inr (before ++ o :: after, args)) = Stop w.
Proof.
  intros Hbefore Ho.
  apply options_alone_stop in Ho.
  unfold options. rewrite (option_loop_first_stop cli before o after _ w).
  - reflexivity.
  - intros o' Hin. apply options_alone_continue. apply Hbefore. exact Hin.
  - exact Ho.
Qed.

Lemma first_rejected_option_decides_witness :
  options Sample.cli
          (inr ([("-q", ""); ("--logfile", "/etc/passwd"); ("--help", "")],
                ["/etc/foo"]))
  = Stop (Fatal "logfile '/etc/passwd' is not writeable").
Proof.
  apply (first_rejected_option_decides Sample.cli [("-q", "")]
           [("--help", "")] ("--logfile", "/etc/passwd") ["/etc/foo"]).
  - intros o [<-|[]]. eexists. reflexivity.
  - reflexivity.
Defined.

(** X22.  Option loop: a command line is accepted (the loop completes and the
    run goes on to the lock) exactly when each of its options, on a command
    line of its own, would be accepted; whether an option is rejected does
    not depend on the options around it. *)
Theorem options_accepted_one_by_one
        (cli : Cli) (opts : list (string * string)) (args : list string) :
  (exists l, options cli (inr (opts, args)) = Continue l)
  <-> forall o, In o opts ->
                exists l, options cli (inr ([o], [])) = Continue l.
Proof.
  split.
  - intros [l H] o Hin. apply options_alone_continue.
    apply in_split in Hin. destruct Hin as (before & after & ->).
    unfold options in H.
    rewrite option_loop_app in H.
    destruct (option_loop cli before (initial cli)) as [l1|w] eqn:H1;
      [|discriminate H].
    cbn [option_loop] in H.
    destruct (option_step cli l1 o) as [l2|w] eqn:H2; [|discriminate H].
    exact (option_step_continue cli _ (initial cli) _ _ H2).
  - intros Hall.
    destruct (option_loop_continue cli opts (initial cli)) as [l1 H1].
    { intros o Hin. apply options_alone_continue. apply Hall. exact Hin. }
    unfold options. rewrite H1. eexists; reflexivity.
Qed.

Lemma options_accepted_one_by_one_witness :
  exists l,
    options Sample.cli
            (inr ([("-s", ""); ("--volsize", "25")], [])) = Continue l.
Proof.
  apply (proj2 (options_accepted_one_by_one Sample.cli
                  [("-s", ""); ("--volsize", "25")] [])).
  intros o [<-|[<-|[]]]; eexists; reflexivity.
Defined.

(** X23.  With -h or --help anywhere among the options the program always
    stops inside the option loop, so no lock is taken and no backup is made;
    when all options before it are acceptable it stops through usage()
    without an error message. *)
Theorem help_stops_the_command
        (cli : Cli) (before after : list (string * string))
        (args : list string) (opt val : string) :
  opt = "-h" \/ opt = "--help" ->
  (exists w, options cli (inr (before ++ (opt, val) :: after, args)) = Stop w)
  /\ ((forall o, In o before ->
                 exists l, options cli (inr ([o], [])) = Continue l) ->
      options cli (inr (before ++ (opt, val) :: after, args))
      = Stop (Usage None)).
Proof.
  intros Hopt.
  assert (Hstep : forall l, option_step cli l (opt, val) = Stop (Usage None))
    by (intros l; destruct Hopt as [-> | ->]; reflexivity).
  split.
  - unfold options. rewrite option_loop_app.
    destruct (option_loop cli before (initial cli)) as [l1|w].
    + cbn [option_loop]. rewrite Hstep. eexists; reflexivity.
    + eexists; reflexivity.
  - intros Hbefore. unfold options.
    rewrite (option_loop_first_stop cli before _ after _ (Usage None)).
    + reflexivity.
    + intros o' Hin. apply options_alone_continue. apply Hbefore. exact Hin.
    + apply Hstep.
Qed.

Lemma help_stops_the_command_witness :
  options Sample.cli
          (inr ([("-s", ""); ("-h", ""); ("--logfile", "/etc/passwd")], []))
  = Stop (Usage None).
Proof.
  apply (proj2 (help_stops_the_command Sample.cli [("-s", "")]
                  [("--logfile", "/etc/passwd")] [] "-h" ""
                  (or_introl eq_refl))).
  intros o [<-|[]]. eexists. reflexivity.
Defined.

(** *** What the accepted options leave in the locals *)

Lemma last_value_cons name o opts :
  last_value name (o :: opts)
  = match last_value name opts with
    | Some v => Some v
    | None => if fst o =? name then Some (snd o) else None
    end.
Proof.
  unfold last_value. cbn [rev].
  induction (rev opts) as [|o' r IH]; cbn [app find].
  - destruct (fst o =? name); reflexivity.
  - destruct (fst o' =? name); [reflexivity|exact IH].
Qed.

Lemma given_cons names o opts :
  given names (o :: opts)
  = existsb (String.eqb (fst o)) names || given names opts.
Proof. reflexivity. Qed.

(** The effect of one accepted option on each local. *)
Lemma option_step_effect cli l opt val l1 :
  option_step cli l (opt, val) = Continue l1 ->
  let c := Locals.conf l in
  let c1 := Locals.conf l1 in
  (Conf.address c1 = if opt =? "--address" then Some val else Conf.address c)
  /\ (Conf.profile c1
      = if opt =? "--profile" then Some (ProfilePath val) else Conf.profile c)
  /\ (Conf.secretfile c1
      = if opt =? "--secretfile" then val else Conf.secretfile c)
  /\ (Locals.opt_logfile l1
      = if opt =? "--logfile" then val else Locals.opt_logfile l)
  /\ (if opt =? "--volsize"
      then to_volsize cli val = Ok (Conf.volsize c1)
      else Conf.volsize c1 = Conf.volsize c)
  /\ (if opt =? "--s3-parallel-uploads"
      then to_s3_parallel_uploads cli val = Ok (Conf.s3_parallel_uploads c1)
      else Conf.s3_parallel_uploads c1 = Conf.s3_parallel_uploads c)
  /\ (if opt =? "--full-backup"
      then to_full_backup cli val = Ok (Conf.full_backup c1)
      else Conf.full_backup c1 = Conf.full_backup c)
  /\ (Conf.simulate c1
      = Conf.simulate c || existsb (String.eqb opt) ["-s"; "--simulate"])
  /\ (Conf.verbose c1
      = Conf.verbose c && negb (existsb (String.eqb opt) ["-q"; "--quiet"]))
  /\ (Locals.opt_resume l1
      = Locals.opt_resume l || existsb (String.eqb opt) ["--resume"])
  /\ (Locals.opt_debug l1
      = Locals.opt_debug l || existsb (String.eqb opt) ["--debug"])
  /\ (Conf.backup_skip_files c1
      = Conf.backup_skip_files c || existsb (String.eqb opt) ["--skip-files"])
  /\ (Conf.backup_skip_database c1
      = Conf.backup_skip_database c
        || existsb (String.eqb opt) ["--skip-database"])
  /\ (Conf.backup_skip_packages c1
      = Conf.backup_skip_packages c
        || existsb (String.eqb opt) ["--skip-packages"])
  /\ Conf.overrides c1 = Conf.overrides c
  /\ Conf.credentials c1 = Conf.credentials c
  /\ Conf.checkpoint_restore c1 = Conf.checkpoint_restore c.
Proof.
  unfold option_step. cbv zeta. cbn [existsb].
  revert l1. by_option; intros l1; by_oracle.
  all: intros H; try discriminate H; injection H as <-.
  all: destruct l as [c d r f]; destruct c.
  all: cbn [Locals.conf Locals.opt_debug Locals.opt_resume Locals.opt_logfile
            Locals.with_conf Locals.set_opt_debug Locals.set_opt_resume
            Locals.set_opt_logfile
            Conf.secretfile Conf.simulate Conf.profile Conf.verbose
            Conf.address Conf.volsize Conf.s3_parallel_uploads
            Conf.full_backup Conf.backup_skip_files
            Conf.backup_skip_database Conf.backup_skip_packages
            Conf.overrides Conf.credentials Conf.checkpoint_restore
            Conf.set_profile Conf.set_address
            Assign.simulate Assign.verbose Assign.secretfile Assign.volsize
            Assign.s3_parallel_uploads Assign.full_backup
            Assign.backup_skip_files Assign.backup_skip_database
            Assign.backup_skip_packages].
  all: repeat split; try reflexivity; try assumption.
  all: repeat match goal with
         | |- context [if ?b then _ else _] => destruct b
         end; reflexivity.
Qed.

Lemma option_loop_values cli opts :
  forall l l',
    option_loop cli opts l = Continue l' ->
    let c := Locals.conf l in
    let c' := Locals.conf l' in
    Conf.address c'
    = match last_value "--address" opts with
      | Some v => Some v
      | None => Conf.address c
      end
    /\ Conf.profile c'
       = match last_value "--profile" opts with
         | Some v => Some (ProfilePath v)
         | None => Conf.profile c
         end
    /\ Conf.secretfile c'
       = match last_value "--secretfile" opts with
         | Some v => v
         | None => Conf.secretfile c
         end
    /\ Locals.opt_logfile l'
       = match last_value "--logfile" opts with
         | Some v => v
         | None => Locals.opt_logfile l
         end
    /\ match last_value "--volsize" opts with
       | Some v => to_volsize cli v = Ok (Conf.volsize c')
       | None => Conf.volsize c' = Conf.volsize c
       end
    /\ match last_value "--s3-parallel-uploads" opts with
       | Some v =>
           to_s3_parallel_uploads cli v = Ok (Conf.s3_parallel_uploads c')
       | None => Conf.s3_parallel_uploads c' = Conf.s3_parallel_uploads c
       end
    /\ match last_value "--full-backup" opts with
       | Some v => to_full_backup cli v = Ok (Conf.full_backup c')
       | None => Conf.full_backup c' = Conf.full_backup c
       end.
Proof.
  cbv zeta. induction opts as [|[opt val] opts IH]; intros l l' H;
    cbn [option_loop] in H.
  - injection H as <-. repeat split.
  - destruct (option_step cli l (opt, val)) as [l1|w] eqn:Hs;
      [|discriminate H].
    apply option_step_effect in Hs. cbv zeta in Hs.
    destruct Hs as (Ha & Hp & Hsf & Hlf & Hv & Hu & Hf & _).
    apply IH in H. destruct H as (Ia & Ip & Is & Il & Iv & Iu & If).
    rewrite !last_value_cons. cbn [fst snd].
    rewrite Ia, Ip, Is, Il, Ha, Hp, Hsf, Hlf.
    repeat split;
      repeat match goal with
        | |- context [last_value ?n opts] => destruct (last_value n opts)
        | |- context [if ?b then _ else _] => destruct b
        end; congruence.
Qed.

Lemma option_loop_flags cli opts :
  forall l l',
    option_loop cli opts l = Continue l' ->
    let c := Locals.conf l in
    let c' := Locals.conf l' in
    Conf.simulate c' = Conf.simulate c || given ["-s"; "--simulate"] opts
    /\ Conf.verbose c' = Conf.verbose c && negb (given ["-q"; "--quiet"] opts)
    /\ Locals.opt_resume l' = Locals.opt_resume l || given ["--resume"] opts
    /\ Locals.opt_debug l' = Locals.opt_debug l || given ["--debug"] opts
    /\ Conf.backup_skip_files c'
       = Conf.backup_skip_files c || given ["--skip-files"] opts
    /\ Conf.backup_skip_database c'
       = Conf.backup_skip_database c || given ["--skip-database"] opts
    /\ Conf.backup_skip_packages c'
       = Conf.backup_skip_packages c || given ["--skip-packages"] opts.
Proof.
  cbv zeta. induction opts as [|[opt val] opts IH]; intros l l' H;
    cbn [option_loop] in H.
  - injection H as <-. unfold given. cbn [existsb].
    rewrite !orb_false_r, andb_true_r. repeat split.
  - destruct (option_step cli l (opt, val)) as [l1|w] eqn:Hs;
      [|discriminate H].
    apply option_step_effect in Hs. cbv zeta in Hs.
    destruct Hs as (_ & _ & _ & _ & _ & _ & _
                    & H1 & H2 & H3 & H4 & H5 & H6 & H7 & _).
    apply IH in H. destruct H as (I1 & I2 & I3 & I4 & I5 & I6 & I7).
    rewrite !given_cons. cbn [fst].
    rewrite I1, I2, I3, I4, I5, I6, I7, H1, H2, H3, H4, H5, H6, H7.
    rewrite negb_orb, !orb_assoc, !andb_assoc. repeat split.
Qed.

Lemma option_loop_untouched cli opts :
  forall l l',
    option_loop cli opts l = Continue l' ->
    Conf.overrides (Locals.conf l') = Conf.overrides (Locals.conf l)
    /\ Conf.credentials (Locals.conf l') = Conf.credentials (Locals.conf l)
    /\ Conf.checkpoint_restore (Locals.conf l')
       = Conf.checkpoint_restore (Locals.conf l).
Proof.
  induction opts as [|[opt val] opts IH]; intros l l' H;
    cbn [option_loop] in H.
  - injection H as <-. repeat split.
  - destruct (option_step cli l (opt, val)) as [l1|w] eqn:Hs;
      [|discriminate H].
    apply option_step_effect in Hs. cbv zeta in Hs.
    destruct Hs as (_ & _ & _ & _ & _ & _ & _
                    & _ & _ & _ & _ & _ & _ & _ & H1 & H2 & H3).
    apply IH in H. destruct H as (I1 & I2 & I3).
    rewrite I1, I2, I3, H1, H2, H3. repeat split.
Qed.

Lemma options_inv cli opts args l :
  options cli (inr (opts, args)) = Continue l ->
  exists l0,
    option_loop cli opts (initial cli) = Continue l0
    /\ l = Locals.with_conf
             (fun c => Assign.overrides (Conf.overrides c ++ args) c) l0.
Proof.
  unfold options.
  destruct (option_loop cli opts (initial cli)) as [l0|w];
    intros H; [|discriminate H].
  injection H as <-. exists l0. split; reflexivity.
Qed.

(** X24.  For --address, --profile, --secretfile and --logfile the last
    occurrence on the command line wins; without the option the value is
    Conf()'s address and profile, the registry's secret file path (line 166
    overrides Conf()'s own), and /var/log/tklbam-backup for the log file. *)
Theorem last_option_wins
        (cli : Cli) (opts : list (string * string)) (args : list string)
        (l : Locals.t) :
  options cli (inr (opts, args)) = Continue l ->
  Conf.address (Locals.conf l)
  = match last_value "--address" opts with
    | Some v => Some v
    | None => Conf.address (conf_default cli)
    end
  /\ Conf.profile (Locals.conf l)
     = match last_value "--profile" opts with
       | Some v => Some (ProfilePath v)
       | None => Conf.profile (conf_default cli)
       end
  /\ Conf.secretfile (Locals.conf l)
     = match last_value "--secretfile" opts with
       | Some v => v
       | None => path_secret cli
       end
  /\ Locals.opt_logfile l
     = match last_value "--logfile" opts with
       | Some v => v
       | None => "/var/log/tklbam-backup"
       end.
Proof.
  intros H. apply options_inv in H. destruct H as (l0 & H & ->).
  apply option_loop_values in H. cbv zeta in H.
  destruct H as (Ha & Hp & Hs & Hl & _).
  destruct l0 as [c d r f]; destruct c.
  cbn in *. rewrite Ha, Hp, Hs, Hl. repeat split.
Qed.

Lemma last_option_wins_witness :
  exists l,
    options Sample.cli
            (inr ([("--address", "file:///mnt/a"); ("--secretfile", "/root/secret");
                   ("--address", "file:///mnt/b")], []))
    = Continue l
    /\ Conf.address (Locals.conf l) = Some "file:///mnt/b"
    /\ Conf.secretfile (Locals.conf l) = "/root/secret"
    /\ Locals.opt_logfile l = "/var/log/tklbam-backup".
Proof.
  eexists. split; [reflexivity|].
  pose proof (last_option_wins Sample.cli
                [("--address", "file:///mnt/a"); ("--secretfile", "/root/secret");
                 ("--address", "file:///mnt/b")] [] _ eq_refl)
    as (Ha & _ & Hs & Hl).
  exact (conj Ha (conj Hs Hl)).
Defined.

(** X25.  For --volsize, --s3-parallel-uploads and --full-backup the
    configuration ends up holding the conversion of the last value given on
    the command line, and Conf()'s own value when the option is absent. *)
Theorem converted_option_values
        (cli : Cli) (opts : list (string * string)) (args : list string)
        (l : Locals.t) :
  options cli (inr (opts, args)) = Continue l ->
  let c := Locals.conf l in
  match last_value "--volsize" opts with
  | Some v => to_volsize cli v = Ok (Conf.volsize c)
  | None => Conf.volsize c = Conf.volsize (conf_default cli)
  end
  /\ match last_value "--s3-parallel-uploads" opts with
     | Some v => to_s3_parallel_uploads cli v = Ok (Conf.s3_parallel_uploads c)
     | None =>
         Conf.s3_parallel_uploads c = Conf.s3_parallel_uploads (conf_default cli)
     end
  /\ match last_value "--full-backup" opts with
     | Some v => to_full_backup cli v = Ok (Conf.full_backup c)
     | None => Conf.full_backup c = Conf.full_backup (conf_default cli)
     end.
Proof.
  intros H. apply options_inv in H. destruct H as (l0 & H & ->).
  apply option_loop_values in H. cbv zeta in H.
  destruct H as (_ & _ & _ & _ & Hv & Hu & Hf).
  destruct l0 as [c d r f]; destruct c.
  cbn in *. repeat split; assumption.
Qed.

Lemma converted_option_values_witness :
  exists l,
    options Sample.cli
            (inr ([("--volsize", "25"); ("--volsize", "100")], []))
    = Continue l
    /\ Conf.volsize (Locals.conf l) = 100%Z.
Proof.
  eexists. split; [reflexivity|].
  pose proof (converted_option_values Sample.cli
                [("--volsize", "25"); ("--volsize", "100")] [] _ eq_refl)
    as (Hv & _).
  exact (f_equal (fun r => match r with Ok n => n | Raise _ => 0%Z end)
                 (eq_sym Hv)).
Defined.

(** X26.  Flags only switch on: after the option loop simulate, the three
    skip flags are set iff Conf() had them set or the flag occurs on the
    command line (in either spelling), verbose is set iff Conf() had it and
    no -q/--quiet occurs, and opt_resume / opt_debug are set iff --resume /
    --debug occurs; no option can undo a flag. *)
Theorem flags_accumulate
        (cli : Cli) (opts : list (string * string)) (args : list string)
        (l : Locals.t) :
  options cli (inr (opts, args)) = Continue l ->
  let c := Locals.conf l in
  let d := conf_default cli in
  Conf.simulate c = Conf.simulate d || given ["-s"; "--simulate"] opts
  /\ Conf.verbose c = Conf.verbose d && negb (given ["-q"; "--quiet"] opts)
  /\ Locals.opt_resume l = given ["--resume"] opts
  /\ Locals.opt_debug l = given ["--debug"] opts
  /\ Conf.backup_skip_files c
     = Conf.backup_skip_files d || given ["--skip-files"] opts
  /\ Conf.backup_skip_database c
     = Conf.backup_skip_database d || given ["--skip-database"] opts
  /\ Conf.backup_skip_packages c
     = Conf.backup_skip_packages d || given ["--skip-packages"] opts.
Proof.
  intros H. apply options_inv in H. destruct H as (l0 & H & ->).
  apply option_loop_flags in H. cbv zeta in H.
  destruct H as (H1 & H2 & H3 & H4 & H5 & H6 & H7).
  destruct l0 as [c d r f]; destruct c.
  cbn in *. repeat split; assumption.
Qed.

Lemma flags_accumulate_witness :
  exists l,
    options Sample.cli (inr ([("-s", ""); ("--debug", ""); ("-s", "")], []))
    = Continue l
    /\ Conf.simulate (Locals.conf l) = true
    /\ Locals.opt_resume l = false
    /\ Locals.opt_debug l = true.
Proof.
  eexists. split; [reflexivity|].
  pose proof (flags_accumulate Sample.cli
                [("-s", ""); ("--debug", ""); ("-s", "")] [] _ eq_refl)
    as (H1 & _ & H3 & H4 & _).
  exact (conj H1 (conj H3 H4)).
Defined.

(** X27.  The remaining command-line arguments are appended to Conf()'s
    overrides, after them and in order (line 218); the option loop never
    changes the overrides, the credentials or the checkpoint-restore flag of
    the configuration. *)
Theorem overrides_are_appended
        (cli : Cli) (opts : list (string * string)) (args : list string)
        (l : Locals.t) :
  options cli (inr (opts, args)) = Continue l ->
  Conf.overrides (Locals.conf l) = Conf.overrides (conf_default cli) ++ args
  /\ Conf.credentials (Locals.conf l) = Conf.credentials (conf_default cli)
  /\ Conf.checkpoint_restore (Locals.conf l)
     = Conf.checkpoint_restore (conf_default cli).
Proof.
  intros H. apply options_inv in H. destruct H as (l0 & H & ->).
  apply option_loop_untouched in H. destruct H as (H1 & H2 & H3).
  destruct l0 as [c d r f]; destruct c.
  cbn in *. rewrite H1, H2, H3. repeat split.
Qed.

Lemma overrides_are_appended_witness :
  exists l,
    options Sample.cli (inr ([("-q", "")], ["-/var/cache"; "mysql:blog"]))
    = Continue l
    /\ Conf.overrides (Locals.conf l)
       = ["/etc/foo"; "mysql:shop/orders"; "-/var/cache"; "mysql:blog"].
Proof.
  eexists. split; [reflexivity|].
  exact (proj1 (overrides_are_appended Sample.cli [("-q", "")]
                  ["-/var/cache"; "mysql:blog"] _ eq_refl)).
Defined.
